(** * BibTeX to CFF converter: a shallow embedding of
      [citation_conversion_utilities.py] and the properties of its
      [Citation] class.

    Python [str] values are sequences of Unicode code points, the
    [info_dict] of a [Citation] is a finite map keyed by the literal keys
    of the source, exceptions are an error type, and the writes to
    [sys.stdout] are collected in order by a small output monad. *)

From Stdlib Require Import ZArith NArith String Ascii List Lia DecimalString.
From Equations Require Import Equations.
From Equations.Prop Require Import Logic.
From stdpp Require Import base gmap strings list.

(** ** Python strings *)

Module Py.

(** A [str] is a sequence of code points. *)
Definition pystr := list N.

(** An ASCII literal of the source, as a [str]. *)
Definition lit (s : string) : pystr := map N_of_ascii (list_ascii_of_string s).
Arguments lit _%_string.

Definition comma : N := 44.
Definition space : N := 32.
Definition dquote : N := 34.
Definition newline : N := 10.
(** U+2013, the separator of [split('–')]. *)
Definition en_dash : N := 8211.

(** [str.isspace] on one code point (CPython's [_PyUnicode_IsWhitespace]). *)
Definition isspace (c : N) : bool :=
  ((9 <=? c) && (c <=? 13) || (28 <=? c) && (c <=? 32)
   || (c =? 133) || (c =? 160) || (c =? 5760)
   || (8192 <=? c) && (c <=? 8202)
   || (c =? 8232) || (c =? 8233) || (c =? 8239) || (c =? 8287)
   || (c =? 12288))%N.

(** A run of whitespace, and a run free of it. *)
Definition blank (s : pystr) : Prop := Forall (λ c, isspace c = true) s.
Definition solid (s : pystr) : Prop := Forall (λ c, isspace c = false) s.

Fixpoint lstrip (s : pystr) : pystr :=
  match s with
  | c :: s' => if isspace c then lstrip s' else s
  | [] => []
  end.

Definition rstrip (s : pystr) : pystr := rev (lstrip (rev s)).

(** [s.strip()] *)
Definition strip (s : pystr) : pystr := rstrip (lstrip s).

Fixpoint startswith (p s : pystr) : bool :=
  match p, s with
  | [], _ => true
  | a :: p', b :: s' => (a =? b)%N && startswith p' s'
  | _ :: _, [] => false
  end.

(** [sub in s] *)
Fixpoint contains (sub s : pystr) : bool :=
  startswith sub s ||
  match s with
  | [] => false
  | _ :: s' => contains sub s'
  end.

(** [s.split(sep)] for a non-empty [sep]: the pieces between the
    non-overlapping occurrences of [sep], found from the left.  [skip]
    counts the code points of a matched separator still to be passed. *)
Fixpoint split_from (sep : pystr) (skip : nat) (s : pystr) : list pystr :=
  match s with
  | [] => [[]]
  | c :: s' =>
      match skip with
      | S k => split_from sep k s'
      | O =>
          if startswith sep s then [] :: split_from sep (length sep - 1) s'
          else match split_from sep 0 s' with
               | piece :: pieces => (c :: piece) :: pieces
               | [] => [[c]]
               end
      end
  end.

Definition split (sep s : pystr) : list pystr := split_from sep 0 s.

(** [sep.join(pieces)], in which [split] is accounted for below. *)
Fixpoint join (sep : pystr) (pieces : list pystr) : pystr :=
  match pieces with
  | [] => []
  | piece :: pieces' =>
      match pieces' with
      | [] => piece
      | _ :: _ => piece ++ sep ++ join sep pieces'
      end
  end.

(** [s.split()]: the maximal runs of non-whitespace code points. *)
Fixpoint split_ws (s : pystr) : list pystr :=
  match s with
  | [] => []
  | c :: s' =>
      if isspace c then split_ws s'
      else match s' with
           | [] => [[c]]
           | d :: _ =>
               if isspace d then [c] :: split_ws s'
               else match split_ws s' with
                    | w :: ws => (c :: w) :: ws
                    | [] => [[c]]
                    end
           end
  end.

(** [str(n)] for an [int]. *)
Definition str_int (n : Z) : pystr := lit (NilZero.string_of_int (Z.to_int n)).

(** [s.zfill(width)]: left padding with ['0'], after a leading sign. *)
Definition zfill (width : nat) (s : pystr) : pystr :=
  if (width <=? length s)%nat then s
  else
    let zeros := repeat 48%N (width - length s) in
    match s with
    | c :: s' => if ((c =? 43) || (c =? 45))%N then c :: zeros ++ s' else zeros ++ s
    | [] => zeros
    end.

(** The builtin [int(s)] on plain ASCII input: surrounding whitespace, an
    optional sign, decimal digits with single underscores between them.
    [None] stands for [ValueError].  The development below is stated for an
    arbitrary [int]; this instance serves the worked examples. *)
Fixpoint int_digits (acc : Z) (after_digit : bool) (s : pystr) : option Z :=
  match s with
  | [] => if after_digit then Some acc else None
  | c :: s' =>
      if (c =? 95)%N then (if after_digit then int_digits acc false s' else None)
      else if ((48 <=? c) && (c <=? 57))%N
           then int_digits (10 * acc + (Z.of_N c - 48)) true s'
           else None
  end.

Definition int_ascii (s : pystr) : option Z :=
  match strip s with
  | 43%N :: r => int_digits 0 false r
  | 45%N :: r => Z.opp <$> int_digits 0 false r
  | r => int_digits 0 false r
  end.

End Py.
Import Py.

(** ** Exceptions and the output stream *)

Inductive exception :=
| AssertionError (msg : pystr)
| KeyError (key : pystr)
| ValueError
| AttributeError
| UnboundLocalError (name : string).

Inductive result (A : Type) :=
| Raise (e : exception)
| Ok (a : A).
Arguments Raise {A} e.
Arguments Ok {A} a.

Definition rbind {A B} (r : result A) (k : A -> result B) : result B :=
  match r with
  | Raise e => Raise e
  | Ok a => k a
  end.

Notation "'try!' x := r 'in' k" := (rbind r (fun x => k))
  (at level 10, x name, r at level 100, k at level 200).

(** [assert cond, msg] *)
Definition assert (cond : bool) (msg : pystr) : result unit :=
  if cond then Ok tt else Raise (AssertionError msg).

Fixpoint mapM {A B} (f : A -> result B) (l : list A) : result (list B) :=
  match l with
  | [] => Ok []
  | a :: l' => try! b := f a in try! bs := mapM f l' in Ok (b :: bs)
  end.

(** A computation that writes to [sys.stdout]: the writes made so far are
    threaded through, and stay made when an exception is raised. *)
Definition IO (A : Type) : Type := list pystr -> list pystr * result A.

Definition io_ret {A} (a : A) : IO A := fun out => (out, Ok a).
Definition io_bind {A B} (m : IO A) (k : A -> IO B) : IO B :=
  fun out =>
    match m out with
    | (out', Ok a) => k a out'
    | (out', Raise e) => (out', Raise e)
    end.
Definition write (s : pystr) : IO unit := fun out => (out ++ [s], Ok tt).
Definition lift {A} (r : result A) : IO A := fun out => (out, r).

Notation "'do!' x := m 'in' k" := (io_bind m (fun x => k))
  (at level 10, x name, m at level 100, k at level 200).
Notation "m >> k" := (io_bind m (fun _ => k))
  (at level 82, right associativity).

Fixpoint for_each {A} (l : list A) (body : A -> IO unit) : IO unit :=
  match l with
  | [] => io_ret tt
  | a :: l' => body a >> for_each l' body
  end.

(** ** Data model *)

(** What [info_dict] holds under its scalar keys. *)
Inductive value :=
| VStr (s : pystr)
| VInt (n : Z).

(** [f'{v}'] *)
Definition format (v : value) : pystr :=
  match v with
  | VStr s => s
  | VInt n => str_int n
  end.

(** An entry of [author_dict]. *)
Record author := mk_author {
  full_name : pystr;
  first_name : pystr;
  last_name : pystr;
  orcid : option pystr
}.

(** A [bibtexparser.model.Entry]: the tag and the decoded fields. *)
Record Entry := mk_Entry {
  entry_type : pystr;
  fields_dict : gmap string pystr
}.

(** The state of a [Citation].  [info_dict] holds the scalar keys; the three
    author keys of the source's dictionary, which hold a dictionary, a
    length and [None] and are only ever read under their own literal
    keys, are the fields [author_dict], [n_authors] and [author_none]. *)
Record Citation := mk_Citation {
  info_dict : gmap string value;
  author_dict : option (list author);
  n_authors : option nat;
  author_none : bool;
  bibtex_provided : bool;
  repo_provided : bool
}.

(** [datetime.now()], as far as the source reads it. *)
Record datetime := mk_datetime {
  dt_year : Z;
  dt_month : Z;
  dt_day : Z
}.

Definition has_key (k : string) (d : gmap string value) : bool :=
  bool_decide (is_Some (d !! k)).

(** [d[k]] *)
Definition getitem (d : gmap string value) (k : string) : result value :=
  match d !! k with
  | Some v => Ok v
  | None => Raise (KeyError (lit k))
  end.

(** ** [Citation.parse_bibtex] *)

(** The keys copied from the entry, in the order of the source. *)
Definition copied_keys : list string :=
  ["title"; "booktitle"; "pages"; "year"; "month"; "day"; "journal";
   "volume"; "series"; "issue"; "editor"; "publisher"; "url"; "doi";
   "abstract"].

Definition copy_fields (bib_info : Entry) (info : gmap string value)
  : gmap string value :=
  foldl (fun d key =>
           match fields_dict bib_info !! key with
           | Some v => <[key := VStr v]> d
           | None => d
           end) info copied_keys.

(** The dictionary [parse_pages] is run on when a [Citation] is built. *)
Definition copied (bib_info : Entry) : gmap string value :=
  copy_fields bib_info (<["ENTRYTYPE" := VStr (entry_type bib_info)]> ∅).

(** One round of the loop over [enumerate(author_list)]. *)
Definition parse_author (author_name : pystr) : result author :=
  if contains [comma] author_name then
    try! _ := assert (length (split [comma] author_name) =? 2)%nat
                     (lit "More than 1 comma (,) in " ++ author_name) in
    Ok {| full_name := strip author_name;
          first_name := strip (nth 1 (split [comma] author_name) []);
          last_name := strip (nth 0 (split [comma] author_name) []);
          orcid := None |}
  else
    try! _ := assert (length (split_ws author_name) =? 2)%nat
                     (lit "More than two names " ++ author_name) in
    Ok {| full_name := strip author_name;
          first_name := strip (nth 0 (split_ws author_name) []);
          last_name := strip (nth 1 (split_ws author_name) []);
          orcid := None |}.

Definition parse_author_list (field : pystr) : result (list author) :=
  mapM parse_author (split (lit " and ") field).

Section Conversion.

(** The builtin [int] on a [str]; [None] when it raises [ValueError]. *)
Variable int : pystr -> option Z.

Definition int_of (s : pystr) : result Z :=
  match int s with
  | Some n => Ok n
  | None => Raise ValueError
  end.

(** The block [if 'pages' in self.info_dict.keys(): ...].  The first
    assignment is made before the second [int] is tried; a value that is
    not a [str] has no [split]. *)
Definition parse_pages (info : gmap string value) : result (gmap string value) :=
  match info !! "pages" with
  | None => Ok info
  | Some (VInt _) => Raise AttributeError
  | Some (VStr pages) =>
      let split_pages := split [en_dash] pages in
      if (length split_pages =? 2)%nat then
        try! first := int_of (nth 0 split_pages []) in
        let info := <["start" := VInt first]> info in
        try! last := int_of (nth 1 split_pages []) in
        Ok (<["end" := VInt last]> info)
      else if (length split_pages =? 1)%nat then
        Ok (<["start" := VStr (nth 0 split_pages [])]> info)
      else Raise (AssertionError (lit "pages does not have expected format"))
  end.

Definition parse_bibtex (self : Citation) (library_entries : list Entry)
  : result Citation :=
  try! _ := assert (length library_entries =? 1)%nat
              (lit "more than 1 entries in bib tex file, give ind or something") in
  match library_entries with
  | [] => Raise (AssertionError [])
  | bib_info :: _ =>
      let info := <["ENTRYTYPE" := VStr (entry_type bib_info)]> (info_dict self) in
      let info := copy_fields bib_info info in
      try! info := parse_pages info in
      match fields_dict bib_info !! "author" with
      | Some field =>
          try! authors := parse_author_list field in
          Ok {| info_dict := info;
                author_dict := Some authors;
                n_authors := Some (length (split (lit " and ") field));
                author_none := author_none self;
                bibtex_provided := true;
                repo_provided := repo_provided self |}
      | None =>
          Ok {| info_dict := info;
                author_dict := author_dict self;
                n_authors := n_authors self;
                author_none := true;
                bibtex_provided := true;
                repo_provided := repo_provided self |}
      end
  end.

(** [Citation(bibtex_string)], from the entries the tokenizer returns. *)
Definition new_Citation (library_entries : list Entry) : result Citation :=
  parse_bibtex {| info_dict := ∅; author_dict := None; n_authors := None;
                  author_none := false; bibtex_provided := false;
                  repo_provided := false |} library_entries.

(** ** [Citation.prep_info_for_export] *)

(** The local variables of the date block, with the dictionary it
    updates.  [year], [month] and [day] are unbound until assigned. *)
Record date_vars := mk_date_vars {
  find_date : bool;
  construct_date : bool;
  year : option value;
  month : option value;
  day : option value;
  dv_info : gmap string value
}.

(** One pass through the body of [while find_date:].  [idk] is a view of
    the dictionary, so every membership test reads its current state. *)
Definition date_iteration (dt : datetime) (v : date_vars) : date_vars :=
  let '(fd, info) :=
    if has_key "date-released" (dv_info v) then (false, dv_info v)
    else match dv_info v !! "date" with
         | Some d => (false, <["date-released" := d]> (dv_info v))
         | None => (find_date v, dv_info v)
         end in
  let cd := true in
  let '(fd, y, m, d) :=
    match info !! "year" with
    | Some y => (fd, Some y, month v, day v)
    | None => (false, Some (VInt (dt_year dt)), Some (VInt (dt_month dt)),
               Some (VInt (dt_day dt)))
    end in
  let '(fd, m, d) :=
    match info !! "month" with
    | Some m => (fd, Some m, d)
    | None => (false, Some (VInt 1), Some (VInt 1))
    end in
  let '(fd, d) :=
    match info !! "day" with
    | Some d => (false, Some d)
    | None => (false, Some (VInt 1))
    end in
  mk_date_vars fd cd y m d info.

(** [while find_date: ...] *)
Equations? date_loop (dt : datetime) (v : date_vars) : date_vars
  by wf (if find_date v then 1 else 0)%nat lt :=
  date_loop dt v with inspect (find_date v) := {
    | exist _ true _ => date_loop dt (date_iteration dt v)
    | exist _ false _ => v }.
Proof.
  replace (find_date (date_iteration dt v)) with false; [rewrite e; lia|].
  unfold date_iteration. repeat case_match; by simplify_eq.
Qed.

(** [type_mapping_bib_to_cff] *)
Definition type_mapping_bib_to_cff : list (pystr * pystr) :=
  [(lit "article", lit "article"); (lit "book", lit "book");
   (lit "booklet", lit "pamphlet");
   (lit "inproceedings", lit "conference-paper");
   (lit "proceedings", lit "proceedings");
   (lit "misc", lit "generic"); (lit "manual", lit "manual");
   (lit "software", lit "software");
   (lit "techreport", lit "report"); (lit "unpublished", lit "unpublished")].

Fixpoint dict_get (table : list (pystr * pystr)) (key : pystr) : option pystr :=
  match table with
  | [] => None
  | (k, v) :: table' => if bool_decide (k = key) then Some v else dict_get table' key
  end.

(** [type_mapping_bib_to_cff[tag]] *)
Definition map_type (tag : value) : result pystr :=
  match tag with
  | VStr t =>
      match dict_get type_mapping_bib_to_cff t with
      | Some c => Ok c
      | None => Raise (KeyError t)
      end
  | VInt n => Raise (KeyError (str_int n))
  end.

Definition unbound {A} (name : string) (x : option A) : result A :=
  match x with
  | Some a => Ok a
  | None => Raise (UnboundLocalError name)
  end.

Definition prep_date (dt : datetime) (info : gmap string value)
  : result (gmap string value) :=
  let v := date_loop dt (mk_date_vars true false None None None info) in
  if construct_date v then
    try! y := unbound "year" (year v) in
    try! m := unbound "month" (month v) in
    try! d := unbound "day" (day v) in
    Ok (<["date-released" :=
            VStr (format y ++ lit "-" ++ zfill 2 (format m) ++ lit "-"
                    ++ zfill 2 (format d))]> (dv_info v))
  else Ok (dv_info v).

(** The text the f-string of the date block evaluates to, read off the
    dictionary ([prep_date_eq] below). *)
Definition constructed_date (dt : datetime) (info : gmap string value) : pystr :=
  format (default (VInt (dt_year dt)) (info !! "year")) ++ lit "-"
    ++ zfill 2 (format (default (VInt 1) (info !! "month"))) ++ lit "-"
    ++ zfill 2 (format (default (VInt 1) (info !! "day"))).

Definition prep_type (info : gmap string value) : result (gmap string value) :=
  match info !! "ENTRYTYPE" with
  | Some tag => try! c := map_type tag in Ok (<["cff_type" := VStr c]> info)
  | None => Ok info
  end.

Definition prep_journal (info : gmap string value) : gmap string value :=
  if has_key "journal" info then info
  else match info !! "series" with
       | Some s => <["journal" := s]> info
       | None => info
       end.

(** [v == s] for a literal [s] *)
Definition eq_str (v : value) (s : pystr) : bool :=
  match v with
  | VStr t => bool_decide (t = s)
  | VInt _ => false
  end.

Definition prep_conference (info : gmap string value) : gmap string value :=
  match info !! "cff_type" with
  | Some c =>
      if eq_str c (lit "conference-paper") then
        match info !! "booktitle" with
        | Some b => if has_key "conference" info then info
                    else <["conference" := b]> info
        | None => info
        end
      else info
  | None => info
  end.

Definition with_info (self : Citation) (info : gmap string value) : Citation :=
  {| info_dict := info;
     author_dict := author_dict self;
     n_authors := n_authors self;
     author_none := author_none self;
     bibtex_provided := bibtex_provided self;
     repo_provided := repo_provided self |}.

(** The four blocks in sequence, on one reading [dt] of the clock.  An
    exception ends the conversion, and the half-updated object is not
    looked at again. *)
Definition prep_info_for_export (dt : datetime) (self : Citation)
  : result Citation :=
  try! _ := assert (bibtex_provided self) (lit "bibtex file not yet provided") in
  try! info := prep_date dt (info_dict self) in
  try! info := prep_type info in
  Ok (with_info self (prep_conference (prep_journal info))).

(** ** [Citation.add_author_names_to_cff] and [Citation.export_as_cff] *)

(** [f'{pre}"{v}"\n'] *)
Definition quoted_line (pre : pystr) (v : pystr) : pystr :=
  pre ++ [dquote] ++ v ++ [dquote; newline].

Definition add_author_names_to_cff (indent_n_spaces : nat) (self : Citation)
  : IO unit :=
  let id := repeat space indent_n_spaces in
  match author_dict self with
  | None => lift (Raise (AssertionError []))
  | Some ad =>
      do! n := lift (match n_authors self with
                     | Some n => Ok n
                     | None => Raise (KeyError (lit "n_authors"))
                     end) in
      lift (assert (n =? length ad)%nat []) >>
      lift (assert (0 <? length ad)%nat []) >>
      write (id ++ lit "authors:" ++ [newline]) >>
      for_each ad (fun author_name_dict =>
        write (quoted_line (id ++ lit "  - family-names: ")
                 (last_name author_name_dict)) >>
        write (quoted_line (id ++ lit "    given-names: ")
                 (first_name author_name_dict)) >>
        match orcid author_name_dict with
        | Some o => write (quoted_line (id ++ lit "    orcid: ") o)
        | None => io_ret tt
        end)
  end.

(** The lines [add_author_names_to_cff] writes for the authors [ad] behind
    the indentation [id] ([add_author_names_writes] below). *)
Definition author_lines (id : pystr) (ad : list author) : list pystr :=
  (id ++ lit "authors:" ++ [newline]) ::
  concat (map (fun a =>
                 [quoted_line (id ++ lit "  - family-names: ") (last_name a);
                  quoted_line (id ++ lit "    given-names: ") (first_name a)]
                 ++ match orcid a with
                    | Some o => [quoted_line (id ++ lit "    orcid: ") o]
                    | None => []
                    end) ad).

(** The keys of the last loop of [export_as_cff], in its order. *)
Definition citation_keys : list string :=
  ["doi"; "url"; "date-released"; "issue"; "volume"; "journal"; "title";
   "booktitle"; "editor"; "series"; "publisher"; "start"; "end"].

(** [if key in d: f.write(line(d[key]))] *)
Definition write_if_present (d : gmap string value) (key : string)
    (line : value -> IO unit) : IO unit :=
  match d !! key with
  | Some v => line v
  | None => io_ret tt
  end.

Definition export_as_cff (dt : datetime) (cff_version : pystr) (self : Citation)
  : IO unit :=
  do! self := lift (prep_info_for_export dt self) in
  let d := info_dict self in
  do! released := lift (getitem d "date-released") in
  write (quoted_line (lit "date-released: ") (format released)) >>
  match d !! "doi" with
  | Some doi => write (quoted_line (lit "doi: ") (format doi))
  | None => write_if_present d "repo_doi" (fun doi =>
              write (quoted_line (lit "doi: ") (format doi)))
  end >>
  do! title := lift (getitem d "title") in
  write (quoted_line (lit "title: ") (format title)) >>
  write (quoted_line (lit "cff-version: ") cff_version) >>
  write_if_present d "repo_version" (fun v =>
    write (quoted_line (lit "version: ") (format v))) >>
  add_author_names_to_cff 0 self >>
  write (lit "preferred-citation:" ++ [newline]) >>
  match d !! "cff_type" with
  | Some t => write (quoted_line (lit "  type: ") (format t))
  | None => write (quoted_line (lit "  type: ") (lit "generic"))
  end >>
  write_if_present d "publisher" (fun v =>
    write (lit "  publisher:" ++ [newline]) >>
    write (quoted_line (lit "    name: ") (format v))) >>
  write_if_present d "conference" (fun v =>
    write (lit "  conference:" ++ [newline]) >>
    write (quoted_line (lit "    name: ") (format v))) >>
  for_each citation_keys (fun key =>
    write_if_present d key (fun v =>
      write (quoted_line (lit "  " ++ lit key ++ lit ": ") (format v)))) >>
  add_author_names_to_cff 2 self.

(** [process]: one conversion, from the entries of the input to the text
    written; [cff_version] keeps its default. *)
Definition process (dt : datetime) (library_entries : list Entry) : IO unit :=
  do! citation := lift (new_Citation library_entries) in
  export_as_cff dt (lit "1.2.0") citation.

(** [main], from the loop over [args.file] on: the inputs named on the
    command line, each as the entries the tokenizer finds in it, with the
    reading of the clock at its conversion.  An exception leaves the
    loop. *)
Definition main (files : list (datetime * list Entry)) : IO unit :=
  for_each files (fun file => process (fst file) (snd file)).

(** The text written by a computation, and how it ended. *)
Definition run {A} (m : IO A) : list pystr * result A := m [].

(** A computation that ends in an exception, whatever was written before. *)
Definition fails {A} (m : IO A) : Prop :=
  ∀ out, ∃ out' e, m out = (out', Raise e).

(** A computation that ends normally. *)
Definition succeeds {A} (m : IO A) : Prop :=
  ∀ out, ∃ out' a, m out = (out', Ok a).

(** A computation that writes the lines [lines] and ends normally. *)
Definition writes {A} (m : IO A) (lines : list pystr) : Prop :=
  ∀ out, ∃ a, m out = (out ++ lines, Ok a).

(** A computation that only adds to what was written. *)
Definition appends {A} (m : IO A) : Prop :=
  ∀ out, ∃ lines, fst (m out) = out ++ lines.

End Conversion.

(** ** Worked inputs *)

Definition today : datetime := mk_datetime 2026 11 4.
Definition new_years_eve : datetime := mk_datetime 2026 12 31.
Definition new_years_day : datetime := mk_datetime 2027 1 1.

(** [@misc{k, title={A Tool}, author={Jane Doe}}] *)
Definition entry_undated : Entry :=
  mk_Entry (lit "misc")
    (<["title" := lit "A Tool"]> (<["author" := lit "Jane Doe"]> ∅)).

(** The same with [date={2019-05-03}]. *)
Definition entry_with_date : Entry :=
  mk_Entry (lit "misc")
    (<["date" := lit "2019-05-03"]> (fields_dict entry_undated)).

(** The same with [year={2020}]. *)
Definition entry_year_only : Entry :=
  mk_Entry (lit "misc")
    (<["year" := lit "2020"]> (fields_dict entry_undated)).

(** [@misc{k, author={Jane Doe}, doi={10.1000/tool}}] *)
Definition entry_untitled : Entry :=
  mk_Entry (lit "misc")
    (<["author" := lit "Jane Doe"]> (<["doi" := lit "10.1000/tool"]> ∅)).

(** [@misc{k, title={A Tool}}] *)
Definition entry_anonymous : Entry :=
  mk_Entry (lit "misc") (<["title" := lit "A Tool"]> ∅).

(** [@inproceedings{k, title={A Paper}, author={Doe, Jane and Smith, John},
    year={2021}, booktitle={Proc. X}, pages={1–10}}] *)
Definition entry_paper : Entry :=
  mk_Entry (lit "inproceedings")
    (<["title" := lit "A Paper"]>
       (<["author" := lit "Doe, Jane and Smith, John"]>
          (<["year" := lit "2021"]>
             (<["booktitle" := lit "Proc. X"]>
                (<["pages" := lit "1" ++ [en_dash] ++ lit "10"]> ∅))))).

(** A prepared-for-export shape built by hand: a conference paper of one
    author, with a series and a full date. *)
Definition citation_series : Citation :=
  mk_Citation
    (<["ENTRYTYPE" := VStr (lit "inproceedings")]>
       (<["title" := VStr (lit "A Paper")]>
          (<["series" := VStr (lit "LNCS")]>
             (<["booktitle" := VStr (lit "Proc. X")]>
                (<["year" := VStr (lit "2021")]>
                   (<["month" := VStr (lit "5")]>
                      (<["day" := VStr (lit "3")]> ∅)))))))
    (Some [mk_author (lit "Jane Doe") (lit "Jane") (lit "Doe") None])
    (Some 1%nat) false true false.

(** The same without authors. *)
Definition citation_anonymous : Citation :=
  mk_Citation (info_dict citation_series) None None true true false.

(** ** Lemmas on the string operations *)

Section StringLemmas.

Implicit Types (c : N) (s : pystr).

Lemma startswith_app sep s :
  startswith sep s = true → s = sep ++ drop (length sep) s.
Proof.
  revert s. induction sep as [|a sep IH]; intros s; [done|].
  destruct s as [|b s]; [done|]. simpl.
  intros [->%N.eqb_eq Hs]%andb_true_iff. f_equal. by apply IH.
Qed.

Lemma join_cons sep piece piece' pieces :
  join sep (piece :: piece' :: pieces) =
    piece ++ sep ++ join sep (piece' :: pieces).
Proof. reflexivity. Qed.

Lemma join_cons_head sep c piece pieces :
  join sep ((c :: piece) :: pieces) = c :: join sep (piece :: pieces).
Proof. by destruct pieces. Qed.

Lemma split_from_nonempty sep skip s : split_from sep skip s ≠ [].
Proof.
  revert skip. induction s as [|c s IH]; intros skip; [done|]. simpl.
  destruct skip; [|apply IH]. destruct (startswith sep (c :: s)); [done|].
  by destruct (split_from sep 0 s).
Qed.

(** Joining the pieces with the separator gives the text back. *)
Lemma split_from_join sep skip s :
  sep ≠ [] → join sep (split_from sep skip s) = drop skip s.
Proof.
  intros Hsep. revert skip. induction s as [|c s IH]; intros skip.
  - by destruct skip.
  - destruct skip as [|k]; [|apply IH]. cbn [split_from drop].
    destruct (startswith sep (c :: s)) eqn:Hstart.
    + apply startswith_app in Hstart.
      destruct sep as [|a sep]; [done|]. cbn [length] in *.
      rewrite Nat.sub_succ, Nat.sub_0_r.
      pose proof (IH (length sep)) as Hrest.
      pose proof (split_from_nonempty (a :: sep) (length sep) s) as Hne.
      destruct (split_from (a :: sep) (length sep) s) as [|piece pieces]; [done|].
      rewrite join_cons, Hrest. cbn [drop] in Hstart. by rewrite <- Hstart.
    + specialize (IH 0%nat). rewrite drop_0 in IH.
      pose proof (split_from_nonempty sep 0 s) as Hne.
      destruct (split_from sep 0 s) as [|piece pieces]; [done|].
      rewrite join_cons_head. f_equal. exact IH.
Qed.

Lemma split_join sep s : sep ≠ [] → join sep (split sep s) = s.
Proof. intros Hsep. unfold split. by rewrite split_from_join. Qed.

Lemma split_cons_char c x s :
  split [c] (x :: s) =
    if (c =? x)%N then [] :: split [c] s
    else match split [c] s with
         | piece :: pieces => (x :: piece) :: pieces
         | [] => [[x]]
         end.
Proof. unfold split. simpl. rewrite andb_true_r. reflexivity. Qed.

Lemma split_char_length c s :
  length (split [c] s) = S (count_occ N.eq_dec s c).
Proof.
  induction s as [|x s IH]; [reflexivity|].
  rewrite split_cons_char. simpl count_occ.
  destruct (N.eqb_spec c x) as [->|Hne].
  - destruct (N.eq_dec x x); [|congruence]. simpl. by rewrite IH.
  - destruct (N.eq_dec x c); [congruence|].
    destruct (split [c] s); simpl in *; [discriminate | done].
Qed.

Lemma split_char_absent c s : c ∉ s → split [c] s = [s].
Proof.
  induction s as [|x s IH]; [reflexivity|].
  intros Hnot. apply not_elem_of_cons in Hnot as [Hne Hnot].
  rewrite split_cons_char, IH by done.
  by destruct (N.eqb_spec c x).
Qed.

Lemma split_char_once c a b :
  c ∉ a → c ∉ b → split [c] (a ++ c :: b) = [a; b].
Proof.
  intros Ha Hb. induction a as [|x a IH]; simpl.
  - rewrite split_cons_char, N.eqb_refl. by rewrite split_char_absent.
  - apply not_elem_of_cons in Ha as [Hne Ha].
    rewrite split_cons_char, IH by done.
    by destruct (N.eqb_spec c x).
Qed.

Lemma contains_char c s : contains [c] s = true ↔ c ∈ s.
Proof.
  induction s as [|x s IH]; simpl.
  - split; [discriminate | by intros ?%elem_of_nil].
  - rewrite andb_true_r, orb_true_iff, IH, elem_of_cons, N.eqb_eq. done.
Qed.

Lemma contains_char_false c s : contains [c] s = false ↔ c ∉ s.
Proof.
  rewrite <- contains_char. destruct (contains [c] s); split; congruence.
Qed.

Lemma count_occ_pos_elem c s : (0 < count_occ N.eq_dec s c)%nat ↔ c ∈ s.
Proof. rewrite list_elem_of_In, (count_occ_In N.eq_dec). unfold gt. done. Qed.

Lemma lstrip_blank_app pre s : blank pre → lstrip (pre ++ s) = lstrip s.
Proof. induction 1 as [|c pre Hc _ IH]; simpl; [done|]. by rewrite Hc. Qed.

Lemma lstrip_solid_app w s : solid w → w ≠ [] → lstrip (w ++ s) = w ++ s.
Proof. destruct 1 as [|c w Hc _]; [done|]. intros _. simpl. by rewrite Hc. Qed.

Lemma solid_rev w : solid w → solid (rev w).
Proof. apply Forall_rev. Qed.

Lemma blank_rev w : blank w → blank (rev w).
Proof. apply Forall_rev. Qed.

(** Stripping removes exactly the blank margins around a text that begins
    and ends with a word. *)
Lemma strip_margins pre first mid last post :
  blank pre → blank post → solid first → first ≠ [] → solid last → last ≠ [] →
  strip (pre ++ (first ++ mid ++ last) ++ post) = first ++ mid ++ last.
Proof.
  intros Hpre Hpost Hf Hfne Hl Hlne. unfold strip, rstrip.
  rewrite lstrip_blank_app by done.
  rewrite <- !app_assoc, lstrip_solid_app by done.
  rewrite !rev_app_distr, <- !app_assoc.
  rewrite lstrip_blank_app by by apply blank_rev.
  rewrite lstrip_solid_app.
  - rewrite <- !rev_app_distr, rev_involutive. by rewrite <- !app_assoc.
  - by apply solid_rev.
  - intros Hr. apply Hlne. by rewrite <- (rev_involutive last), Hr.
Qed.

Lemma strip_word w : solid w → strip w = w.
Proof.
  intros Hw. destruct w as [|c w]; [reflexivity|].
  unfold strip, rstrip.
  pose proof (lstrip_solid_app (c :: w) [] Hw) as H1. rewrite app_nil_r in H1.
  rewrite H1 by done.
  pose proof (lstrip_solid_app (rev (c :: w)) [] (solid_rev _ Hw)) as H2.
  rewrite app_nil_r in H2. rewrite H2, rev_involutive; [done|].
  intros Hr. apply (f_equal (@rev N)) in Hr. rewrite rev_involutive in Hr. done.
Qed.

Lemma split_ws_nil s : split_ws s = [] → blank s.
Proof.
  induction s as [|c s IH]; [constructor|]. simpl.
  destruct (isspace c) eqn:Hc.
  - intros H. apply Forall_cons. split; [done | by apply IH].
  - destruct s as [|d s]; [done|]. destruct (isspace d); [done|].
    destruct (split_ws (d :: s)); done.
Qed.

Lemma split_ws_solid s : Forall solid (split_ws s).
Proof.
  induction s as [|c s IH]; [constructor|]. simpl.
  destruct (isspace c) eqn:Hc; [done|].
  destruct s as [|d s]; [by repeat constructor|].
  destruct (isspace d) eqn:Hd.
  - constructor; [by repeat constructor | done].
  - destruct (split_ws (d :: s)) as [|w ws]; [by repeat constructor|].
    inversion IH; subst. constructor; [by constructor | done].
Qed.

(** The shape of a text whose first word is [w]. *)
Lemma split_ws_first s w ws :
  split_ws s = w :: ws →
  ∃ pre rest, s = pre ++ w ++ rest ∧ blank pre ∧ w ≠ [] ∧ split_ws rest = ws ∧
              match rest with [] => True | d :: _ => isspace d = true end.
Proof.
  revert w ws. induction s as [|c s IH]; [done|]. intros w ws. simpl.
  destruct (isspace c) eqn:Hc.
  - intros (pre & rest & -> & Hpre & Hw & Hrest & Hhd)%IH.
    exists (c :: pre), rest. repeat split; try done. by constructor.
  - destruct s as [|d s].
    { intros [= <- <-]. exists [], []. repeat split; try done. constructor. }
    destruct (isspace d) eqn:Hd.
    { intros [= <- <-]. exists [], (d :: s). repeat split; try done. constructor. }
    destruct (split_ws (d :: s)) as [|w' ws'] eqn:Hs.
    { apply split_ws_nil in Hs. inversion Hs; congruence. }
    intros [= <- <-].
    destruct (IH w' ws' eq_refl) as (pre & rest & Heq & Hpre & Hw & Hrest & Hhd).
    destruct pre as [|p pre].
    + exists [], rest. simpl in *. rewrite Heq. repeat split; try done.
    + inversion Hpre; subst. simpl in Heq. injection Heq as -> _. congruence.
Qed.

(** A text of exactly two words is the two words, a non-empty blank gap
    between them, and blank margins. *)
Lemma split_ws_two s first last :
  split_ws s = [first; last] →
  ∃ pre gap post,
    s = pre ++ (first ++ gap ++ last) ++ post ∧
    blank pre ∧ blank gap ∧ blank post ∧ gap ≠ [] ∧
    solid first ∧ first ≠ [] ∧ solid last ∧ last ≠ [].
Proof.
  intros Hs. pose proof (split_ws_solid s) as Hsolid. rewrite Hs in Hsolid.
  apply Forall_cons in Hsolid as [Hf Hsolid]. apply Forall_cons in Hsolid as [Hl _].
  apply split_ws_first in Hs as (pre & rest & -> & Hpre & Hfne & Hrest & Hhd).
  apply split_ws_first in Hrest as (gap & post & -> & Hgap & Hlne & Hpost & _).
  apply split_ws_nil in Hpost.
  exists pre, gap, post. rewrite <- !app_assoc. repeat split; try done.
  intros ->. simpl in Hhd. destruct last as [|d last]; [done|].
  simpl in Hhd. inversion Hl; congruence.
Qed.

End StringLemmas.

(** ** Lemmas on the preparation step *)

Section PrepLemmas.

Implicit Types (info : gmap string value) (self : Citation).

Lemma date_loop_step dt v :
  date_loop dt v = if find_date v then date_loop dt (date_iteration dt v) else v.
Proof.
  rewrite date_loop_equation_1 at 1.
  unfold date_loop_unfold_clause_1, Logic.inspect.
  destruct (find_date v); reflexivity.
Qed.

Lemma date_iteration_stops dt v : find_date (date_iteration dt v) = false.
Proof. unfold date_iteration. repeat case_match; by simplify_eq. Qed.

(** The loop runs its body exactly once. *)
Lemma date_loop_once dt v :
  find_date v = true → date_loop dt v = date_iteration dt v.
Proof.
  intros Hv. rewrite date_loop_step, Hv, date_loop_step.
  by rewrite date_iteration_stops.
Qed.

(** The date block always stores the constructed date: what the first two
    branches of the loop put or found under [date-released] is
    overwritten. *)
Lemma prep_date_eq dt info :
  prep_date dt info =
    Ok (<["date-released" := VStr (constructed_date dt info)]> info).
Proof.
  unfold prep_date. rewrite date_loop_once by reflexivity.
  unfold date_iteration, constructed_date. simpl.
  destruct (has_key "date-released" info); simpl.
  - destruct (info !! "year"), (info !! "month"), (info !! "day"); reflexivity.
  - destruct (info !! "date") as [d|]; simpl.
    + rewrite !lookup_insert_ne by done.
      destruct (info !! "year"), (info !! "month"), (info !! "day"); simpl;
        by rewrite insert_insert_eq.
    + destruct (info !! "year"), (info !! "month"), (info !! "day"); reflexivity.
Qed.

Lemma prep_type_lookup_ne info info' k :
  prep_type info = Ok info' → k ≠ "cff_type" → info' !! k = info !! k.
Proof.
  unfold prep_type. destruct (info !! "ENTRYTYPE") as [tag|]; [|by intros [= <-]].
  destruct (map_type tag); simpl; [done|]. intros [= <-] Hk.
  by rewrite lookup_insert_ne.
Qed.

Lemma prep_journal_lookup_ne info k :
  k ≠ "journal" → prep_journal info !! k = info !! k.
Proof.
  intros Hk. unfold prep_journal. destruct (has_key "journal" info); [done|].
  destruct (info !! "series"); [|done]. by rewrite lookup_insert_ne.
Qed.

Lemma prep_conference_lookup_ne info k :
  k ≠ "conference" → prep_conference info !! k = info !! k.
Proof.
  intros Hk. unfold prep_conference. repeat case_match; try done.
  by rewrite lookup_insert_ne.
Qed.

Lemma has_key_true k info : has_key k info = true ↔ is_Some (info !! k).
Proof. unfold has_key. apply bool_decide_eq_true. Qed.

Lemma has_key_false k info : has_key k info = false ↔ info !! k = None.
Proof.
  unfold has_key. rewrite bool_decide_eq_false. by rewrite eq_None_not_Some.
Qed.

Lemma prep_journal_fixed info :
  is_Some (info !! "journal") ∨ info !! "series" = None →
  prep_journal info = info.
Proof.
  unfold prep_journal. intros [Hj | Hs].
  - apply has_key_true in Hj. by rewrite Hj.
  - rewrite Hs. by destruct (has_key "journal" info).
Qed.

Lemma prep_journal_settled info :
  is_Some (prep_journal info !! "journal") ∨ prep_journal info !! "series" = None.
Proof.
  unfold prep_journal. destruct (has_key "journal" info) eqn:Hj.
  - left. by apply has_key_true.
  - destruct (info !! "series") eqn:Hs; [left | by right].
    rewrite lookup_insert_eq. by eexists.
Qed.

Lemma prep_conference_idem info :
  prep_conference (prep_conference info) = prep_conference info.
Proof.
  unfold prep_conference at 2.
  destruct (info !! "cff_type") as [c|] eqn:Hc; [|unfold prep_conference; by rewrite Hc].
  destruct (eq_str c _) eqn:Hconf; [|unfold prep_conference; by rewrite Hc, Hconf].
  destruct (info !! "booktitle") as [b|] eqn:Hb;
    [|unfold prep_conference; by rewrite Hc, Hconf, Hb].
  destruct (has_key "conference" info) eqn:Hk;
    [unfold prep_conference; by rewrite Hc, Hconf, Hb, Hk|].
  unfold prep_conference. rewrite !lookup_insert_ne, Hc, Hconf, Hb, Hk by done.
  replace (has_key "conference" (<["conference":=b]> info)) with true; [done|].
  symmetry. apply has_key_true. rewrite lookup_insert_eq. by eexists.
Qed.

Lemma prep_type_stable info info' info'' :
  prep_type info = Ok info' →
  info'' !! "ENTRYTYPE" = info' !! "ENTRYTYPE" →
  info'' !! "cff_type" = info' !! "cff_type" →
  prep_type info'' = Ok info''.
Proof.
  unfold prep_type. destruct (info !! "ENTRYTYPE") as [tag|] eqn:Htag.
  - destruct (map_type tag) as [|c] eqn:Hc; simpl; [done|]. intros [= <-].
    rewrite lookup_insert_ne, lookup_insert_eq, Htag by done.
    intros -> Hcff. rewrite Hc. simpl. by rewrite insert_id.
  - intros [= <-]. rewrite Htag. by intros ->.
Qed.

(** What [prep_info_for_export] computes, step by step. *)
Lemma prep_info_for_export_eq dt self :
  prep_info_for_export dt self =
    if bibtex_provided self then
      try! info := prep_type (<["date-released" :=
                      VStr (constructed_date dt (info_dict self))]> (info_dict self)) in
      Ok (with_info self (prep_conference (prep_journal info)))
    else Raise (AssertionError (lit "bibtex file not yet provided")).
Proof.
  unfold prep_info_for_export, assert. destruct (bibtex_provided self); [|done].
  simpl. by rewrite prep_date_eq.
Qed.

Lemma prep_ok_inv dt self self' :
  prep_info_for_export dt self = Ok self' →
  bibtex_provided self = true ∧
  ∃ info, prep_type (<["date-released" :=
             VStr (constructed_date dt (info_dict self))]> (info_dict self)) = Ok info ∧
          self' = with_info self (prep_conference (prep_journal info)).
Proof.
  rewrite prep_info_for_export_eq. destruct (bibtex_provided self); [|done].
  destruct (prep_type _) as [|info]; simpl; [done|]. intros [= <-]. eauto.
Qed.

(** The keys that preparation leaves as they are. *)
Lemma prep_preserves dt self self' k :
  prep_info_for_export dt self = Ok self' →
  k ≠ "date-released" → k ≠ "cff_type" → k ≠ "journal" → k ≠ "conference" →
  info_dict self' !! k = info_dict self !! k.
Proof.
  intros (_ & info & Ht & ->)%prep_ok_inv ? ? ? ?. simpl.
  rewrite prep_conference_lookup_ne, prep_journal_lookup_ne by done.
  rewrite (prep_type_lookup_ne _ _ _ Ht) by done. by rewrite lookup_insert_ne.
Qed.

Lemma prep_date_released dt self self' :
  prep_info_for_export dt self = Ok self' →
  info_dict self' !! "date-released" =
    Some (VStr (constructed_date dt (info_dict self))).
Proof.
  intros (_ & info & Ht & ->)%prep_ok_inv. simpl.
  rewrite prep_conference_lookup_ne, prep_journal_lookup_ne by done.
  rewrite (prep_type_lookup_ne _ _ _ Ht) by done. by rewrite lookup_insert_eq.
Qed.

Lemma prep_authors dt self self' :
  prep_info_for_export dt self = Ok self' →
  author_dict self' = author_dict self ∧ n_authors self' = n_authors self.
Proof. by intros (_ & info & Ht & ->)%prep_ok_inv. Qed.

End PrepLemmas.

(** ** Date resolution *)

Section DateResolution.

Variable int : pystr → option Z.

(** X14. A second preparation changes nothing when the clock still shows
    the year of the first, or the entry has a year of its own. *)
Lemma prep_info_for_export_stable dt1 dt2 self self1 :
  prep_info_for_export dt1 self = Ok self1 →
  is_Some (info_dict self !! "year") ∨ dt_year dt1 = dt_year dt2 →
  prep_info_for_export dt2 self1 = Ok self1.
Proof.
  intros H1 Hyear.
  pose proof (prep_date_released _ _ _ H1) as Hdr.
  assert (constructed_date dt2 (info_dict self1)
          = constructed_date dt1 (info_dict self)) as Hsame.
  { unfold constructed_date.
    rewrite !(prep_preserves _ _ _ _ H1) by done.
    destruct Hyear as [[y ->] | ->]; reflexivity. }
  apply prep_ok_inv in H1 as (Hprov & info & Ht & ->).
  rewrite prep_info_for_export_eq. simpl in *. rewrite Hprov, Hsame.
  rewrite (insert_id _ _ _ Hdr).
  set (info1 := prep_conference (prep_journal info)) in *.
  rewrite (prep_type_stable _ _ info1 Ht); simpl.
  - unfold with_info; simpl. do 2 f_equal.
    rewrite (prep_journal_fixed info1).
    + apply prep_conference_idem.
    + subst info1. rewrite !prep_conference_lookup_ne by done.
      apply prep_journal_settled.
  - subst info1. by rewrite prep_conference_lookup_ne, prep_journal_lookup_ne.
  - subst info1. by rewrite prep_conference_lookup_ne, prep_journal_lookup_ne.
Qed.

(** C1. An entry with a [date] field and no year, converted on 2026-11-04:
    the field is not copied into the dictionary, and the prepared
    [date-released] is the constructed ["2026-01-01"], not the date
    ["2019-05-03"]; the same happens when [date] is placed in the
    dictionary itself, where the second branch of the loop adopts it and
    the construction then overwrites it. *)
Theorem date_field_is_overwritten :
  ∃ c c' c'',
    new_Citation int [entry_with_date] = Ok c ∧
    info_dict c !! "date" = None ∧
    prep_info_for_export today c = Ok c' ∧
    info_dict c' !! "date-released" = Some (VStr (lit "2026-01-01")) ∧
    prep_info_for_export today
      (with_info c (<["date" := VStr (lit "2019-05-03")]> (info_dict c))) = Ok c'' ∧
    info_dict c'' !! "date" = Some (VStr (lit "2019-05-03")) ∧
    info_dict c'' !! "date-released" = Some (VStr (lit "2026-01-01")).
Proof.
  do 3 eexists.
  split; [vm_compute; reflexivity|].
  split; [vm_compute; reflexivity|].
  split; [vm_compute; reflexivity|].
  split; [vm_compute; reflexivity|].
  split; [vm_compute; reflexivity|].
  split; vm_compute; reflexivity.
Qed.

(** C2. An entry with no date fields at all, converted on 2026-11-04, is
    dated ["2026-01-01"]: the month and day taken from the clock are
    replaced by 1 when the [month] key is found missing.  An entry with
    only [year = 2020] is dated ["2020-01-01"]. *)
Theorem undated_entry_is_dated_first_of_january :
  (∃ c c',
     new_Citation int [entry_undated] = Ok c ∧
     prep_info_for_export today c = Ok c' ∧
     info_dict c' !! "date-released" = Some (VStr (lit "2026-01-01"))) ∧
  (∃ c c',
     new_Citation int [entry_year_only] = Ok c ∧
     prep_info_for_export today c = Ok c' ∧
     info_dict c' !! "date-released" = Some (VStr (lit "2020-01-01"))).
Proof.
  split; do 2 eexists.
  - split; [vm_compute; reflexivity|]. split; vm_compute; reflexivity.
  - split; [vm_compute; reflexivity|]. split; vm_compute; reflexivity.
Qed.

(** C9. An entry without a year, prepared on 2026-12-31 and again on
    2027-01-01: the second call finds [date-released] present and still
    constructs it anew, so it changes from ["2026-01-01"] to
    ["2027-01-01"]. *)
Theorem second_preparation_reconstructs_date :
  ∃ c c1 c2,
    new_Citation int [entry_undated] = Ok c ∧
    prep_info_for_export new_years_eve c = Ok c1 ∧
    prep_info_for_export new_years_day c1 = Ok c2 ∧
    info_dict c1 !! "date-released" = Some (VStr (lit "2026-01-01")) ∧
    info_dict c2 !! "date-released" = Some (VStr (lit "2027-01-01")).
Proof.
  do 3 eexists.
  split; [vm_compute; reflexivity|].
  split; [vm_compute; reflexivity|].
  split; [vm_compute; reflexivity|].
  split; vm_compute; reflexivity.
Qed.

End DateResolution.

(** ** Entry types *)

Section TypeMapping.

Implicit Types (tag c : pystr).

Lemma map_type_listed tag c :
  In (tag, c) type_mapping_bib_to_cff → map_type (VStr tag) = Ok c.
Proof.
  unfold type_mapping_bib_to_cff. simpl In. intros H.
  repeat (destruct H as [H|H]; [injection H as <- <-; reflexivity|]).
  destruct H.
Qed.

Lemma map_type_unlisted tag :
  ¬ In tag (map fst type_mapping_bib_to_cff) →
  map_type (VStr tag) = Raise (KeyError tag).
Proof.
  intros H. unfold map_type, type_mapping_bib_to_cff, dict_get.
  repeat (case_bool_decide as Hk;
          [exfalso; apply H; rewrite <- Hk; simpl; tauto | clear Hk]).
  reflexivity.
Qed.

Lemma map_type_generic tag :
  map_type (VStr tag) = Ok (lit "generic") → tag = lit "misc".
Proof.
  unfold map_type, type_mapping_bib_to_cff, dict_get.
  repeat (case_bool_decide as Hk;
          [intros Hc;
           first [by subst | injection Hc as Hc; vm_compute in Hc; discriminate]
          | clear Hk]).
  intros; discriminate.
Qed.

Lemma prep_cff_type dt self self' tag :
  info_dict self !! "ENTRYTYPE" = Some (VStr tag) →
  prep_info_for_export dt self = Ok self' →
  ∃ c, map_type (VStr tag) = Ok c ∧ info_dict self' !! "cff_type" = Some (VStr c).
Proof.
  intros Htag (_ & info & Ht & ->)%prep_ok_inv.
  unfold prep_type in Ht. rewrite lookup_insert_ne, Htag in Ht by done.
  destruct (map_type (VStr tag)) as [|c]; [done|].
  injection Ht as <-. exists c. split; [done|]. cbn [info_dict with_info].
  rewrite prep_conference_lookup_ne, prep_journal_lookup_ne by done.
  by rewrite lookup_insert_eq.
Qed.

(** C4. The type of a prepared citation comes from the ten-entry table
    alone: a listed tag is mapped to its entry, a tag that is not a key
    makes the preparation fail with the key error on that tag, and
    ["generic"] is only ever the image of ["misc"]. *)
Theorem entry_type_lookup_is_strict dt self tag :
  bibtex_provided self = true →
  info_dict self !! "ENTRYTYPE" = Some (VStr tag) →
  (∀ c,
     In (tag, c)
        [(lit "article", lit "article"); (lit "book", lit "book");
         (lit "booklet", lit "pamphlet");
         (lit "inproceedings", lit "conference-paper");
         (lit "proceedings", lit "proceedings"); (lit "misc", lit "generic");
         (lit "manual", lit "manual"); (lit "software", lit "software");
         (lit "techreport", lit "report");
         (lit "unpublished", lit "unpublished")] →
     ∃ self', prep_info_for_export dt self = Ok self' ∧
              info_dict self' !! "cff_type" = Some (VStr c)) ∧
  (¬ In tag [lit "article"; lit "book"; lit "booklet"; lit "inproceedings";
             lit "proceedings"; lit "misc"; lit "manual"; lit "software";
             lit "techreport"; lit "unpublished"] →
   prep_info_for_export dt self = Raise (KeyError tag)) ∧
  (∀ self', prep_info_for_export dt self = Ok self' →
            info_dict self' !! "cff_type" = Some (VStr (lit "generic")) →
            tag = lit "misc").
Proof.
  intros Hprov Htag. repeat split.
  - intros c Hc%map_type_listed.
    rewrite prep_info_for_export_eq, Hprov. unfold prep_type.
    rewrite lookup_insert_ne, Htag, Hc by done. simpl.
    eexists. split; [reflexivity|]. simpl.
    rewrite prep_conference_lookup_ne, prep_journal_lookup_ne by done.
    by rewrite lookup_insert_eq.
  - intros Hno%map_type_unlisted.
    rewrite prep_info_for_export_eq, Hprov. unfold prep_type.
    by rewrite lookup_insert_ne, Htag, Hno.
  - intros self' Hok Hgen.
    destruct (prep_cff_type _ _ _ _ Htag Hok) as (c & Hc & Hcff).
    rewrite Hcff in Hgen. injection Hgen as ->. by apply map_type_generic.
Qed.

End TypeMapping.

(** ** Serialization *)

Section Serialization.

Variable int : pystr → option Z.

Lemma fails_bind_l {A B} (m : IO A) (k : A → IO B) :
  fails m → fails (io_bind m k).
Proof.
  intros Hm out. destruct (Hm out) as (out' & e & Heq).
  exists out', e. unfold io_bind. by rewrite Heq.
Qed.

Lemma fails_bind_r {A B} (m : IO A) (k : A → IO B) :
  (∀ a, fails (k a)) → fails (io_bind m k).
Proof.
  intros Hk out. unfold io_bind. destruct (m out) as [out' [e|a]]; [by eauto|].
  apply Hk.
Qed.

Lemma fails_bind_lift {A B} (r : result A) (k : A → IO B) :
  (∀ a, r = Ok a → fails (k a)) → fails (io_bind (lift r) k).
Proof.
  intros Hk out. unfold io_bind, lift. destruct r as [e|a]; [by eauto|].
  by apply Hk.
Qed.

Lemma add_author_names_fails indent self :
  author_dict self = None → fails (add_author_names_to_cff indent self).
Proof.
  intros Hnone out. unfold add_author_names_to_cff. rewrite Hnone.
  unfold lift. eauto.
Qed.

(** Without an [author_dict] the serializer never reaches its end. *)
Lemma export_fails_without_authors dt cff_version self :
  author_dict self = None → fails (export_as_cff dt cff_version self).
Proof.
  intros Hnone. unfold export_as_cff.
  apply fails_bind_lift. intros self' [Had _]%prep_authors.
  rewrite Hnone in Had.
  repeat first
    [ apply fails_bind_l; apply add_author_names_fails; assumption
    | apply fails_bind_lift; intros ? _
    | apply fails_bind_r; intros ? ].
Qed.

Lemma new_Citation_without_author bib_info c :
  fields_dict bib_info !! "author" = None →
  new_Citation int [bib_info] = Ok c →
  author_dict c = None ∧ author_none c = true.
Proof.
  intros Hno. unfold new_Citation, parse_bibtex. cbn [length Nat.eqb assert rbind].
  destruct (parse_pages int _) as [|info]; [done|]. cbn [rbind].
  rewrite Hno. by intros [= <-].
Qed.

(** C10. An entry without an [author] field is never converted: whatever
    else it holds, the conversion ends in an exception, at the latest at the
    first rendering of the author list. *)
Theorem entry_without_author_is_never_converted dt bib_info :
  fields_dict bib_info !! "author" = None →
  fails (process int dt [bib_info]) ∧
  ∀ c cff_version,
    new_Citation int [bib_info] = Ok c → fails (export_as_cff dt cff_version c).
Proof.
  intros Hno. split.
  - unfold process. apply fails_bind_lift.
    intros c [Hc _]%(new_Citation_without_author _ _ Hno).
    by apply export_fails_without_authors.
  - intros c cff_version [Hc _]%(new_Citation_without_author _ _ Hno).
    by apply export_fails_without_authors.
Qed.

(** The lines written before the title is looked up. *)
Lemma export_without_title_run dt cff_version self self' :
  info_dict self !! "title" = None →
  prep_info_for_export dt self = Ok self' →
  run (export_as_cff dt cff_version self) =
    (quoted_line (lit "date-released: ") (constructed_date dt (info_dict self)) ::
     match info_dict self !! "doi" with
     | Some doi => [quoted_line (lit "doi: ") (format doi)]
     | None =>
         match info_dict self !! "repo_doi" with
         | Some doi => [quoted_line (lit "doi: ") (format doi)]
         | None => []
         end
     end,
     Raise (KeyError (lit "title"))).
Proof.
  intros Htitle Hprep.
  pose proof (prep_date_released _ _ _ Hprep) as Hdr.
  pose proof (prep_preserves _ _ _ "title" Hprep) as Ht.
  pose proof (prep_preserves _ _ _ "doi" Hprep) as Hdoi.
  pose proof (prep_preserves _ _ _ "repo_doi" Hprep) as Hrepo.
  rewrite Htitle in Ht.
  unfold run, export_as_cff, io_bind, lift, getitem, write_if_present, write, io_ret.
  rewrite Hprep, Hdr, Ht, Hdoi, Hrepo by done.
  cbn [format app].
  destruct (info_dict self !! "doi"); [reflexivity|].
  destruct (info_dict self !! "repo_doi"); reflexivity.
Qed.

(** C3, as amended. The lines are written as they are rendered.  When the
    title is absent, a failed preparation leaves nothing written, and a
    successful one is followed by the [date-released] line, the [doi] line if
    there is a [doi] or [repo_doi], and the key error on [title]. *)
Theorem export_without_title dt cff_version self :
  info_dict self !! "title" = None →
  (∀ e, prep_info_for_export dt self = Raise e →
        run (export_as_cff dt cff_version self) = ([], Raise e)) ∧
  (∀ self', prep_info_for_export dt self = Ok self' →
     run (export_as_cff dt cff_version self) =
       (quoted_line (lit "date-released: ")
                    (constructed_date dt (info_dict self)) ::
        match info_dict self !! "doi" with
        | Some doi => [quoted_line (lit "doi: ") (format doi)]
        | None =>
            match info_dict self !! "repo_doi" with
            | Some doi => [quoted_line (lit "doi: ") (format doi)]
            | None => []
            end
        end,
        Raise (KeyError (lit "title")))).
Proof.
  intros Htitle. split.
  - intros e He. unfold run, export_as_cff, io_bind, lift. by rewrite He.
  - intros self'. by apply export_without_title_run.
Qed.

End Serialization.

(** C3, as stated, fails on an entry without a title: the conversion ends
    in an exception after two lines have been written. *)
Lemma untitled_entry_leaves_partial_output :
  ¬ (∀ dt library_entries,
       match run (process int_ascii dt library_entries) with
       | (_, Ok _) => True
       | (out, Raise _) => out = []
       end).
Proof.
  intros H. specialize (H today [entry_untitled]).
  vm_compute in H. discriminate H.
Qed.

Lemma export_without_title_witness :
  run (export_as_cff today (lit "1.2.0")
         (mk_Citation (<["doi" := VStr (lit "10.1000/tool")]> ∅)
            None None true true false)) =
    ([quoted_line (lit "date-released: ") (lit "2026-01-01");
      quoted_line (lit "doi: ") (lit "10.1000/tool")],
     Raise (KeyError (lit "title"))).
Proof.
  refine (proj2 (export_without_title today (lit "1.2.0")
                   (mk_Citation (<["doi" := VStr (lit "10.1000/tool")]> ∅)
                      None None true true false) _) _ _);
    vm_compute; reflexivity.
Defined.

Lemma entry_without_author_witness :
  fails (process int_ascii today [entry_anonymous]).
Proof.
  refine (proj1 (entry_without_author_is_never_converted int_ascii today
                   entry_anonymous _)).
  vm_compute. reflexivity.
Defined.

(** ** Author names *)

Section Authors.

Implicit Types (token field first last : pystr).

Lemma mapM_Ok {A B} (f : A → result B) l bs :
  mapM f l = Ok bs ↔ Forall2 (λ a b, f a = Ok b) l bs.
Proof.
  revert bs. induction l as [|a l IH]; intros bs; simpl.
  - split; [intros [= <-]; constructor | by inversion 1].
  - destruct (f a) as [e|b] eqn:Hfa; simpl.
    + split; [done|]. inversion 1; congruence.
    + destruct (mapM f l) as [e|bs'] eqn:Hl; simpl.
      * split; [done|]. inversion 1; subst.
        match goal with H : Forall2 _ l _ |- _ => apply IH in H; done end.
      * split.
        -- intros [= <-]. constructor; [done | by apply IH].
        -- inversion 1; subst.
           match goal with H : Forall2 _ l _ |- _ => apply IH in H end.
           congruence.
Qed.

Lemma mapM_Raise {A B} (f : A → result B) l :
  (∃ e, mapM f l = Raise e) ↔ Exists (λ a, ∃ e, f a = Raise e) l.
Proof.
  induction l as [|a l IH]; simpl.
  - split; [by intros [? ?] | by inversion 1].
  - rewrite Exists_cons, <- IH. destruct (f a) as [e|b]; simpl.
    + split; eauto.
    + destruct (mapM f l) as [e|bs]; simpl.
      * split; eauto.
      * split; [by intros [? ?] | by intros [[? ?]|[? ?]]].
Qed.

Lemma parse_author_comma token before after :
  token = before ++ comma :: after → comma ∉ before → comma ∉ after →
  parse_author token =
    Ok (mk_author (strip token) (strip after) (strip before) None).
Proof.
  intros -> Hb Ha. unfold parse_author.
  replace (contains [comma] (before ++ comma :: after)) with true.
  2:{ symmetry. apply contains_char. set_solver. }
  by rewrite split_char_once.
Qed.

Lemma parse_author_commas token :
  (2 ≤ count_occ N.eq_dec token comma)%nat →
  parse_author token =
    Raise (AssertionError (lit "More than 1 comma (,) in " ++ token)).
Proof.
  intros Hcount. unfold parse_author.
  replace (contains [comma] token) with true.
  2:{ symmetry. apply contains_char, count_occ_pos_elem. lia. }
  rewrite split_char_length.
  destruct (Nat.eqb_spec (S (count_occ N.eq_dec token comma)) 2); [lia | done].
Qed.

Lemma parse_author_words token first last :
  comma ∉ token → split_ws token = [first; last] →
  parse_author token = Ok (mk_author (strip token) first last None).
Proof.
  intros Hno%contains_char_false Hws. unfold parse_author. rewrite Hno, Hws.
  pose proof (split_ws_solid token) as Hsolid. rewrite Hws in Hsolid.
  apply Forall_cons in Hsolid as [Hf Hsolid]. apply Forall_cons in Hsolid as [Hl _].
  cbn [length Nat.eqb assert rbind nth].
  by rewrite (strip_word first), (strip_word last).
Qed.

Lemma parse_author_miscounted token :
  comma ∉ token → length (split_ws token) ≠ 2 →
  parse_author token =
    Raise (AssertionError (lit "More than two names " ++ token)).
Proof.
  intros Hno%contains_char_false Hlen. unfold parse_author. rewrite Hno.
  by destruct (Nat.eqb_spec (length (split_ws token)) 2).
Qed.

(** C5. The author field is cut at [" and "] and every token is parsed on
    its own, the first failure being the failure of the whole.  A token
    with one comma gives the trimmed text before it as last name and the
    trimmed text after it as first name; with two commas or more it is
    refused.  A token without a comma gives its two whitespace-separated
    pieces as first and last name, and is refused when it has any other
    number of pieces. *)
Theorem author_list_parsing field :
  (∀ authors,
     parse_author_list field = Ok authors ↔
     Forall2 (λ token a, parse_author token = Ok a)
             (split (lit " and ") field) authors) ∧
  ((∃ e, parse_author_list field = Raise e) ↔
   Exists (λ token, ∃ e, parse_author token = Raise e)
          (split (lit " and ") field)) ∧
  ∀ token,
    (∀ before after,
       token = before ++ comma :: after → comma ∉ before → comma ∉ after →
       parse_author token =
         Ok {| full_name := strip token; first_name := strip after;
               last_name := strip before; orcid := None |}) ∧
    ((2 ≤ count_occ N.eq_dec token comma)%nat →
     parse_author token =
       Raise (AssertionError (lit "More than 1 comma (,) in " ++ token))) ∧
    (comma ∉ token →
     ∀ first last,
       split_ws token = [first; last] →
       parse_author token =
         Ok {| full_name := strip token; first_name := first;
               last_name := last; orcid := None |}) ∧
    (comma ∉ token → length (split_ws token) ≠ 2 →
     parse_author token =
       Raise (AssertionError (lit "More than two names " ++ token))).
Proof.
  split; [|split].
  - intros authors. apply mapM_Ok.
  - apply mapM_Raise.
  - intros token. repeat split.
    + apply parse_author_comma.
    + apply parse_author_commas.
    + intros Hno first last. by apply parse_author_words.
    + apply parse_author_miscounted.
Qed.

(** C8, as amended. A comma-free token that parses is, once trimmed, its
    first name, a non-empty run of whitespace and its last name; joining the
    two names with one space gives the trimmed token back exactly when that
    run is one space. *)
Theorem two_word_author_round_trip token a :
  contains [comma] token = false →
  parse_author token = Ok a →
  ∃ gap,
    gap ≠ [] ∧ blank gap ∧
    strip token = first_name a ++ gap ++ last_name a ∧
    (first_name a ++ [space] ++ last_name a = strip token ↔ gap = [space]).
Proof.
  intros Hno. unfold parse_author. rewrite Hno.
  destruct (Nat.eqb_spec (length (split_ws token)) 2) as [Hlen|]; [|done].
  destruct (split_ws token) as [|first [|last [|? ?]]] eqn:Hws; try done.
  clear Hlen. cbn [assert rbind nth]. intros [= <-]. cbn [first_name last_name].
  destruct (split_ws_two _ _ _ Hws)
    as (pre & gap & post & -> & Hpre & Hgap & Hpost & Hne & Hf & Hfne & Hl & Hlne).
  rewrite strip_margins, (strip_word first), (strip_word last) by done.
  exists gap. repeat split; try done.
  - intros Heq. apply app_inv_head in Heq. by apply app_inv_tail in Heq.
  - by intros ->.
Qed.

End Authors.

(** C8, as stated, fails on a token with two spaces between the names. *)
Lemma double_space_breaks_round_trip :
  ¬ (∀ token a,
       contains [comma] token = false →
       parse_author token = Ok a →
       first_name a ++ [space] ++ last_name a = strip token).
Proof.
  intros H.
  specialize (H (lit "Jane  Doe")
                (mk_author (lit "Jane  Doe") (lit "Jane") (lit "Doe") None)
                eq_refl eq_refl).
  vm_compute in H. discriminate H.
Qed.

Lemma two_word_author_round_trip_witness :
  ∃ gap,
    gap ≠ [] ∧ blank gap ∧
    strip (lit " Jane Doe ") = lit "Jane" ++ gap ++ lit "Doe" ∧
    (lit "Jane" ++ [space] ++ lit "Doe" = strip (lit " Jane Doe ") ↔ gap = [space]).
Proof.
  exact (two_word_author_round_trip (lit " Jane Doe ")
           (mk_author (lit "Jane Doe") (lit "Jane") (lit "Doe") None)
           eq_refl eq_refl).
Defined.

Lemma author_list_parsing_witness :
  parse_author (lit "Doe, Jane") =
    Ok (mk_author (lit "Doe, Jane") (lit "Jane") (lit "Doe") None) ∧
  parse_author (lit "Jane Doe") =
    Ok (mk_author (lit "Jane Doe") (lit "Jane") (lit "Doe") None) ∧
  parse_author (lit "Doe, Jane, Jr") =
    Raise (AssertionError (lit "More than 1 comma (,) in Doe, Jane, Jr")) ∧
  parse_author (lit "Jane Q Doe") =
    Raise (AssertionError (lit "More than two names Jane Q Doe")).
Proof.
  pose proof (author_list_parsing []) as (_ & _ & Htoken).
  split; [|split; [|split]].
  - refine (proj1 (Htoken (lit "Doe, Jane")) (lit "Doe") (lit " Jane") _ _ _);
      [reflexivity | |]; apply contains_char_false; reflexivity.
  - refine (proj1 (proj2 (proj2 (Htoken (lit "Jane Doe")))) _
                  (lit "Jane") (lit "Doe") _);
      [apply contains_char_false; reflexivity | reflexivity].
  - refine (proj1 (proj2 (Htoken (lit "Doe, Jane, Jr"))) _). vm_compute. lia.
  - refine (proj2 (proj2 (proj2 (Htoken (lit "Jane Q Doe")))) _ _);
      [apply contains_char_false; reflexivity | vm_compute; lia].
Defined.

(** ** Page ranges *)

Section Pages.

Variable int : pystr → option Z.

Implicit Types (pages first last : pystr) (info : gmap string value).

Lemma copy_fields_lookup bib_info info k :
  copy_fields bib_info info !! k =
    if bool_decide (k ∈ copied_keys) then
      match fields_dict bib_info !! k with
      | Some v => Some (VStr v)
      | None => info !! k
      end
    else info !! k.
Proof.
  unfold copy_fields. generalize copied_keys as keys. intros keys. revert info.
  induction keys as [|key keys IH]; intros info.
  - rewrite bool_decide_eq_false_2 by apply not_elem_of_nil. done.
  - cbn [foldl]. rewrite IH. destruct (decide (k = key)) as [->|Hne].
    + rewrite (bool_decide_eq_true_2 (key ∈ key :: keys)) by apply list_elem_of_here.
      destruct (fields_dict bib_info !! key) eqn:Hf.
      * rewrite lookup_insert_eq. by case_bool_decide.
      * by case_bool_decide.
    + assert (match fields_dict bib_info !! key with
              | Some v => <[key:=VStr v]> info
              | None => info
              end !! k = info !! k) as ->.
      { destruct (fields_dict bib_info !! key); [by rewrite lookup_insert_ne | done]. }
      assert (bool_decide (k ∈ key :: keys) = bool_decide (k ∈ keys)) as ->; [|done].
      apply bool_decide_ext. rewrite elem_of_cons.
      split; [by intros [?|?] | by right].
Qed.

Lemma copied_pages bib_info pages :
  fields_dict bib_info !! "pages" = Some pages →
  copied bib_info !! "pages" = Some (VStr pages).
Proof. intros H. unfold copied. rewrite copy_fields_lookup, H. reflexivity. Qed.

Lemma copied_start_end bib_info :
  copied bib_info !! "start" = None ∧ copied bib_info !! "end" = None.
Proof. unfold copied. rewrite !copy_fields_lookup. split; reflexivity. Qed.

Lemma new_Citation_eq bib_info :
  new_Citation int [bib_info] =
    try! info := parse_pages int (copied bib_info) in
    match fields_dict bib_info !! "author" with
    | Some field =>
        try! authors := parse_author_list field in
        Ok (mk_Citation info (Some authors)
              (Some (length (split (lit " and ") field))) false true false)
    | None => Ok (mk_Citation info None None true true false)
    end.
Proof. reflexivity. Qed.

Lemma new_Citation_pages_raise bib_info e :
  parse_pages int (copied bib_info) = Raise e →
  new_Citation int [bib_info] = Raise e.
Proof. intros H. by rewrite new_Citation_eq, H. Qed.

Lemma new_Citation_pages_ok bib_info c :
  new_Citation int [bib_info] = Ok c →
  parse_pages int (copied bib_info) = Ok (info_dict c).
Proof.
  rewrite new_Citation_eq.
  destruct (parse_pages int (copied bib_info)) as [|info]; [done|]. cbn [rbind].
  destruct (fields_dict bib_info !! "author") as [field|].
  - destruct (parse_author_list field); [done|]. by intros [= <-].
  - by intros [= <-].
Qed.

(** The authors stored are the parsed tokens, as many as were counted. *)
Lemma new_Citation_authors bib_info c field :
  fields_dict bib_info !! "author" = Some field →
  new_Citation int [bib_info] = Ok c →
  ∃ authors,
    parse_author_list field = Ok authors ∧
    author_dict c = Some authors ∧ n_authors c = Some (length authors).
Proof.
  intros Hf. rewrite new_Citation_eq.
  destruct (parse_pages int (copied bib_info)) as [|info]; [done|]. cbn [rbind].
  rewrite Hf. destruct (parse_author_list field) as [|authors] eqn:Hp; [done|].
  intros [= <-]. exists authors. repeat split. cbn [n_authors]. f_equal.
  apply mapM_Ok in Hp. by apply Forall2_length in Hp.
Qed.

Lemma parse_pages_miscounted info pages :
  info !! "pages" = Some (VStr pages) →
  length (split [en_dash] pages) ≠ 1 → length (split [en_dash] pages) ≠ 2 →
  parse_pages int info =
    Raise (AssertionError (lit "pages does not have expected format")).
Proof.
  intros Hp H1 H2. unfold parse_pages. rewrite Hp.
  destruct (Nat.eqb_spec (length (split [en_dash] pages)) 2); [done|].
  by destruct (Nat.eqb_spec (length (split [en_dash] pages)) 1).
Qed.

Lemma parse_pages_not_numeric info pages first last :
  info !! "pages" = Some (VStr pages) →
  split [en_dash] pages = [first; last] →
  int first = None ∨ int last = None →
  parse_pages int info = Raise ValueError.
Proof.
  intros Hp Hs Hint. unfold parse_pages, int_of. rewrite Hp, Hs.
  cbn [length Nat.eqb nth].
  destruct Hint as [Hi|Hi]; [by rewrite Hi|].
  destruct (int first); [|done]. cbn [rbind]. by rewrite Hi.
Qed.

Lemma parse_pages_range info pages first last x y :
  info !! "pages" = Some (VStr pages) →
  split [en_dash] pages = [first; last] →
  int first = Some x → int last = Some y →
  parse_pages int info = Ok (<["end" := VInt y]> (<["start" := VInt x]> info)).
Proof.
  intros Hp Hs Hx Hy. unfold parse_pages, int_of. rewrite Hp, Hs.
  cbn [length Nat.eqb nth]. by rewrite Hx, Hy.
Qed.

Lemma parse_pages_single info pages :
  info !! "pages" = Some (VStr pages) →
  en_dash ∉ pages →
  parse_pages int info = Ok (<["start" := VStr pages]> info).
Proof.
  intros Hp Hno. unfold parse_pages. rewrite Hp, split_char_absent by done.
  reflexivity.
Qed.

(** C6. A pages string that the separator cuts into three parts or more is
    refused with the assertion error, and one that it cuts into two parts
    of which one is not an integer for [int] is refused with the value
    error; either way no [Citation] is built from the entry. *)
Theorem invalid_pages_are_refused pages :
  (∀ info,
     info !! "pages" = Some (VStr pages) →
     (length (split [en_dash] pages) ≠ 1 → length (split [en_dash] pages) ≠ 2 →
      parse_pages int info =
        Raise (AssertionError (lit "pages does not have expected format"))) ∧
     (∀ first last,
        split [en_dash] pages = [first; last] →
        int first = None ∨ int last = None →
        parse_pages int info = Raise ValueError)) ∧
  (∀ bib_info,
     fields_dict bib_info !! "pages" = Some pages →
     (length (split [en_dash] pages) ≠ 1 → length (split [en_dash] pages) ≠ 2 →
      new_Citation int [bib_info] =
        Raise (AssertionError (lit "pages does not have expected format"))) ∧
     (∀ first last,
        split [en_dash] pages = [first; last] →
        int first = None ∨ int last = None →
        new_Citation int [bib_info] = Raise ValueError)).
Proof.
  split.
  - intros info Hp. split.
    + by apply parse_pages_miscounted.
    + intros first last. by apply parse_pages_not_numeric.
  - intros bib_info Hp%copied_pages. split.
    + intros H1 H2. apply new_Citation_pages_raise.
      by apply (parse_pages_miscounted _ pages).
    + intros first last Hs Hint. apply new_Citation_pages_raise.
      by apply (parse_pages_not_numeric _ pages first last).
Qed.

(** C7. A pages string with one separator and an integer on either side
    gives [start] and [end] as those integers; a pages string without the
    separator is stored as it is under [start], and no [end] is set. *)
Theorem pages_are_split_at_the_dash pages :
  (∀ info,
     info !! "pages" = Some (VStr pages) →
     (∀ first last x y,
        pages = first ++ en_dash :: last → en_dash ∉ first → en_dash ∉ last →
        int first = Some x → int last = Some y →
        parse_pages int info =
          Ok (<["end" := VInt y]> (<["start" := VInt x]> info))) ∧
     (en_dash ∉ pages →
      parse_pages int info = Ok (<["start" := VStr pages]> info))) ∧
  (∀ bib_info c,
     fields_dict bib_info !! "pages" = Some pages →
     new_Citation int [bib_info] = Ok c →
     (∀ first last x y,
        pages = first ++ en_dash :: last → en_dash ∉ first → en_dash ∉ last →
        int first = Some x → int last = Some y →
        info_dict c !! "start" = Some (VInt x) ∧
        info_dict c !! "end" = Some (VInt y)) ∧
     (en_dash ∉ pages →
      info_dict c !! "start" = Some (VStr pages) ∧
      info_dict c !! "end" = None)).
Proof.
  split.
  - intros info Hp. split.
    + intros first last x y -> Hf Hl Hx Hy.
      eapply parse_pages_range; [done | by apply split_char_once | done..].
    + by apply parse_pages_single.
  - intros bib_info c Hp%copied_pages Hc%new_Citation_pages_ok. split.
    + intros first last x y -> Hf Hl Hx Hy.
      rewrite (parse_pages_range _ _ first last x y Hp) in Hc;
        [|by apply split_char_once|done..].
      injection Hc as <-.
      by rewrite lookup_insert_ne, lookup_insert_eq, lookup_insert_eq.
    + intros Hno. rewrite (parse_pages_single _ _ Hp Hno) in Hc.
      injection Hc as <-.
      rewrite lookup_insert_eq, lookup_insert_ne by done.
      split; [done | apply copied_start_end].
Qed.

End Pages.

(** ** Worked instances *)

Lemma entry_type_lookup_witness :
  (∃ self',
     prep_info_for_export today
       (mk_Citation (<["ENTRYTYPE" := VStr (lit "inproceedings")]> ∅)
          None None true true false) = Ok self' ∧
     info_dict self' !! "cff_type" = Some (VStr (lit "conference-paper"))) ∧
  prep_info_for_export today
    (mk_Citation (<["ENTRYTYPE" := VStr (lit "weird")]> ∅)
       None None true true false) = Raise (KeyError (lit "weird")).
Proof.
  split.
  - refine (proj1 (entry_type_lookup_is_strict today
                     (mk_Citation (<["ENTRYTYPE" := VStr (lit "inproceedings")]> ∅)
                        None None true true false)
                     (lit "inproceedings") eq_refl eq_refl)
                  (lit "conference-paper") _).
    do 3 right. left. reflexivity.
  - refine (proj1 (proj2 (entry_type_lookup_is_strict today
                     (mk_Citation (<["ENTRYTYPE" := VStr (lit "weird")]> ∅)
                        None None true true false)
                     (lit "weird") eq_refl eq_refl)) _).
    intros H. vm_compute in H.
    repeat (destruct H as [H|H]; [discriminate H|]). destruct H.
Defined.

Lemma invalid_pages_witness :
  parse_pages int_ascii
    (<["pages" := VStr (lit "1" ++ [en_dash] ++ lit "2" ++ [en_dash] ++ lit "3")]> ∅) =
    Raise (AssertionError (lit "pages does not have expected format")) ∧
  parse_pages int_ascii
    (<["pages" := VStr (lit "iv" ++ [en_dash] ++ lit "12")]> ∅) = Raise ValueError.
Proof.
  split.
  - refine (proj1 (proj1 (invalid_pages_are_refused int_ascii
                            (lit "1" ++ [en_dash] ++ lit "2" ++ [en_dash] ++ lit "3"))
                         (<["pages" := VStr (lit "1" ++ [en_dash] ++ lit "2"
                                               ++ [en_dash] ++ lit "3")]> ∅)
                         eq_refl) _ _);
      vm_compute; lia.
  - refine (proj2 (proj1 (invalid_pages_are_refused int_ascii
                            (lit "iv" ++ [en_dash] ++ lit "12"))
                         (<["pages" := VStr (lit "iv" ++ [en_dash] ++ lit "12")]> ∅)
                         eq_refl) (lit "iv") (lit "12") eq_refl _).
    left. reflexivity.
Defined.

Lemma pages_witness :
  parse_pages int_ascii (<["pages" := VStr (lit "12" ++ [en_dash] ++ lit "20")]> ∅) =
    Ok (<["end" := VInt 20]>
          (<["start" := VInt 12]>
             (<["pages" := VStr (lit "12" ++ [en_dash] ++ lit "20")]> ∅))) ∧
  parse_pages int_ascii (<["pages" := VStr (lit "45")]> ∅) =
    Ok (<["start" := VStr (lit "45")]> (<["pages" := VStr (lit "45")]> ∅)).
Proof.
  split.
  - refine (proj1 (proj1 (pages_are_split_at_the_dash int_ascii
                            (lit "12" ++ [en_dash] ++ lit "20"))
                         (<["pages" := VStr (lit "12" ++ [en_dash] ++ lit "20")]> ∅)
                         eq_refl) (lit "12") (lit "20") 12%Z 20%Z eq_refl _ _
                  eq_refl eq_refl);
      apply contains_char_false; reflexivity.
  - refine (proj2 (proj1 (pages_are_split_at_the_dash int_ascii (lit "45"))
                         (<["pages" := VStr (lit "45")]> ∅) eq_refl) _).
    apply contains_char_false; reflexivity.
Defined.

(** The entry of the end-to-end example, converted on 2026-11-04. *)
Example entry_paper_converted :
  run (process int_ascii today [entry_paper]) =
    ([quoted_line (lit "date-released: ") (lit "2021-01-01");
      quoted_line (lit "title: ") (lit "A Paper");
      quoted_line (lit "cff-version: ") (lit "1.2.0");
      lit "authors:" ++ [newline];
      quoted_line (lit "  - family-names: ") (lit "Doe");
      quoted_line (lit "    given-names: ") (lit "Jane");
      quoted_line (lit "  - family-names: ") (lit "Smith");
      quoted_line (lit "    given-names: ") (lit "John");
      lit "preferred-citation:" ++ [newline];
      quoted_line (lit "  type: ") (lit "conference-paper");
      lit "  conference:" ++ [newline];
      quoted_line (lit "    name: ") (lit "Proc. X");
      quoted_line (lit "  date-released: ") (lit "2021-01-01");
      quoted_line (lit "  title: ") (lit "A Paper");
      quoted_line (lit "  booktitle: ") (lit "Proc. X");
      quoted_line (lit "  start: ") (lit "1");
      quoted_line (lit "  end: ") (lit "10");
      lit "  authors:" ++ [newline];
      quoted_line (lit "    - family-names: ") (lit "Doe");
      quoted_line (lit "      given-names: ") (lit "Jane");
      quoted_line (lit "    - family-names: ") (lit "Smith");
      quoted_line (lit "      given-names: ") (lit "John")],
     Ok tt).
Proof. vm_compute. reflexivity. Qed.

(** ** Further properties of the construction *)

Section Construction.

Variable int : pystr → option Z.

Implicit Types (token field pages first last : pystr)
  (info : gmap string value) (bib_info : Entry) (c : Citation).

Lemma split_char_two_inv (sep : N) (s a b : pystr) :
  split [sep] s = [a; b] → s = a ++ sep :: b ∧ (sep ∉ a) ∧ (sep ∉ b).
Proof.
  intros Hs.
  assert ([sep] ≠ []) as Hsep by done.
  pose proof (split_join [sep] s Hsep) as Hj. rewrite Hs in Hj.
  pose proof (split_char_length sep s) as Hl. rewrite Hs in Hl.
  cbn in Hj. subst s. split; [done|].
  rewrite count_occ_app in Hl. cbn [count_occ length] in Hl.
  destruct (N.eq_dec sep sep); [|done].
  rewrite <- !count_occ_pos_elem. lia.
Qed.

Lemma count_occ_one_split (sep : N) (s : pystr) :
  count_occ N.eq_dec s sep = 1%nat →
  ∃ a b, s = a ++ sep :: b ∧ (sep ∉ a) ∧ (sep ∉ b).
Proof.
  intros Hc.
  pose proof (split_char_length sep s) as Hl. rewrite Hc in Hl.
  destruct (split [sep] s) as [|a [|b [|? ?]]] eqn:Hs; try done.
  exists a, b. by apply split_char_two_inv.
Qed.

Lemma lstrip_idem s : lstrip (lstrip s) = lstrip s.
Proof.
  induction s as [|x s IH]; [done|]. cbn [lstrip].
  destruct (isspace x) eqn:Hx; [exact IH|]. cbn [lstrip]. by rewrite Hx.
Qed.

Lemma lstrip_decomp s : ∃ pre, s = pre ++ lstrip s ∧ blank pre.
Proof.
  induction s as [|x s (pre & Hs & Hpre)];
    [exists []; split; [done | constructor]|].
  cbn [lstrip]. destruct (isspace x) eqn:Hx.
  - exists (x :: pre). split; [simpl; by f_equal | by constructor].
  - exists []. split; [done | constructor].
Qed.

Lemma lstrip_head s x r : lstrip s = x :: r → isspace x = false.
Proof.
  induction s as [|y s IH]; [done|]. simpl.
  destruct (isspace y) eqn:Hy; [done|]. by intros [= <- _].
Qed.

Lemma strip_idem s : strip (strip s) = strip s.
Proof.
  unfold strip, rstrip.
  set (t := lstrip s). set (u := lstrip (rev t)).
  assert (lstrip (rev u) = rev u) as Hru.
  { destruct (lstrip_decomp (rev t)) as (pre & Ht & _). fold u in Ht.
    apply (f_equal (@rev N)) in Ht. rewrite rev_involutive, rev_app_distr in Ht.
    destruct (rev u) as [|x r] eqn:Hr; [done|].
    simpl in Ht. apply lstrip_head in Ht. simpl. by rewrite Ht. }
  rewrite Hru, rev_involutive. subst u. by rewrite lstrip_idem.
Qed.

Lemma parse_author_orcid token a : parse_author token = Ok a → orcid a = None.
Proof.
  unfold parse_author, assert. repeat case_match; simpl; try done; by intros [= <-].
Qed.

(** X1. A [Citation] is built from exactly one entry: an input holding no
    entry or several is refused with the assertion error, whose text speaks
    of more than one entry in either case. *)
Theorem parse_bibtex_needs_one_entry self library_entries :
  length library_entries ≠ 1%nat →
  parse_bibtex int self library_entries =
    Raise (AssertionError
             (lit "more than 1 entries in bib tex file, give ind or something")).
Proof.
  intros Hlen. unfold parse_bibtex, assert.
  by destruct (Nat.eqb_spec (length library_entries) 1).
Qed.

Ltac absurd_member H :=
  repeat (apply elem_of_cons in H as [H|H]; [discriminate H|]);
  by apply elem_of_nil in H.

Lemma parse_pages_frame info info' k :
  parse_pages int info = Ok info' → k ≠ "start" → k ≠ "end" →
  info' !! k = info !! k.
Proof.
  unfold parse_pages. intros H Hs He.
  destruct (info !! "pages") as [[pages|?]|]; [|done|by injection H as <-].
  destruct (_ =? 2)%nat.
  - destruct (int_of int _); [done|]. cbn [rbind] in H.
    destruct (int_of int _); [done|]. injection H as <-.
    by rewrite !lookup_insert_ne.
  - destruct (_ =? 1)%nat; [|done]. injection H as <-.
    by rewrite lookup_insert_ne.
Qed.

Lemma new_Citation_dict bib_info c :
  new_Citation int [bib_info] = Ok c →
  bibtex_provided c = true ∧
  info_dict c !! "ENTRYTYPE" = Some (VStr (entry_type bib_info)) ∧
  (∀ k, k ∈ ["title"; "booktitle"; "pages"; "year"; "month"; "day"; "journal";
             "volume"; "series"; "issue"; "editor"; "publisher"; "url"; "doi";
             "abstract"] →
        info_dict c !! k = VStr <$> fields_dict bib_info !! k) ∧
  (∀ k, k ∉ ["title"; "booktitle"; "pages"; "year"; "month"; "day"; "journal";
             "volume"; "series"; "issue"; "editor"; "publisher"; "url"; "doi";
             "abstract"; "ENTRYTYPE"; "start"; "end"] →
        info_dict c !! k = None).
Proof.
  intros Hc. pose proof (new_Citation_pages_ok int _ _ Hc) as Hp.
  split; [|split; [|split]].
  - rewrite new_Citation_eq in Hc.
    destruct (parse_pages int _); [done|]. cbn [rbind] in Hc.
    destruct (fields_dict bib_info !! "author") as [field|].
    + destruct (parse_author_list field); [done|]. by injection Hc as <-.
    + by injection Hc as <-.
  - rewrite (parse_pages_frame _ _ _ Hp) by done.
    unfold copied. rewrite copy_fields_lookup.
    rewrite bool_decide_eq_false_2; [by rewrite lookup_insert_eq|].
    unfold copied_keys. intros H. absurd_member H.
  - intros k Hk.
    rewrite (parse_pages_frame _ _ _ Hp) by (intros ->; absurd_member Hk).
    unfold copied. rewrite copy_fields_lookup.
    rewrite bool_decide_eq_true_2 by done.
    destruct (fields_dict bib_info !! k); [done|]. simpl.
    rewrite lookup_insert_ne by (intros <-; absurd_member Hk). done.
  - intros k Hk. rewrite !not_elem_of_cons in Hk. destruct_and!.
    rewrite (parse_pages_frame _ _ _ Hp) by done.
    unfold copied. rewrite copy_fields_lookup.
    rewrite bool_decide_eq_false_2.
    + by rewrite lookup_insert_ne.
    + unfold copied_keys. rewrite !not_elem_of_cons.
      repeat split; done.
Qed.


(** X3. When the entry has an [author] field, the built [Citation] holds
    one author for each token of the field, in order, with the count
    recorded beside them; there is at least one, and none has an
    [orcid]. *)
Theorem new_Citation_author_invariant bib_info c field :
  fields_dict bib_info !! "author" = Some field →
  new_Citation int [bib_info] = Ok c →
  ∃ authors,
    author_dict c = Some authors ∧
    n_authors c = Some (length authors) ∧
    (0 < length authors)%nat ∧
    Forall2 (λ token a, parse_author token = Ok a)
            (split (lit " and ") field) authors ∧
    Forall (λ a, orcid a = None) authors.
Proof.
  intros Hf Hc.
  destruct (new_Citation_authors int _ _ _ Hf Hc) as (authors & Hp & Had & Hn).
  apply mapM_Ok in Hp. exists authors. repeat split; try done.
  - rewrite <- (Forall2_length _ _ _ Hp).
    pose proof (split_from_nonempty (lit " and ") 0 field) as Hne.
    unfold split. destruct (split_from _ _ _); [done | simpl; lia].
  - clear -Hp. induction Hp; constructor; eauto using parse_author_orcid.
Qed.

(** X4. A token is accepted as an author name exactly when it holds one
    comma, whatever stands around it, or holds no comma and two
    whitespace-separated pieces. *)
Theorem parse_author_succeeds_iff token :
  (∃ a, parse_author token = Ok a) ↔
  count_occ N.eq_dec token comma = 1%nat ∨
  (count_occ N.eq_dec token comma = 0%nat ∧ length (split_ws token) = 2%nat).
Proof.
  unfold parse_author, assert.
  destruct (contains [comma] token) eqn:Hc.
  - apply contains_char, count_occ_pos_elem in Hc.
    rewrite split_char_length.
    destruct (Nat.eqb_spec (S (count_occ N.eq_dec token comma)) 2); simpl.
    + split; [intros _; left; lia | eauto].
    + split; [by intros [? ?] | lia].
  - apply contains_char_false in Hc.
    assert (count_occ N.eq_dec token comma = 0%nat) as H0.
    { destruct (count_occ N.eq_dec token comma) eqn:Hn; [done|].
      exfalso. apply Hc, count_occ_pos_elem. lia. }
    destruct (Nat.eqb_spec (length (split_ws token)) 2); simpl.
    + split; [intros _; by right | eauto].
    + split; [by intros [? ?] | lia].
Qed.

(** X5. The three names stored for an author carry no whitespace at either
    end: trimming them again changes nothing. *)
Theorem parsed_names_are_trimmed token a :
  parse_author token = Ok a →
  strip (full_name a) = full_name a ∧
  strip (first_name a) = first_name a ∧
  strip (last_name a) = last_name a.
Proof.
  unfold parse_author, assert.
  repeat case_match; simpl; try done; intros [= <-]; simpl;
    by rewrite !strip_idem.
Qed.

(** X6. The names taken from a token without a comma are not empty and
    hold neither whitespace nor a comma. *)
Theorem two_word_names_are_solid token a :
  comma ∉ token →
  parse_author token = Ok a →
  first_name a ≠ [] ∧ last_name a ≠ [] ∧
  solid (first_name a) ∧ solid (last_name a) ∧
  (comma ∉ first_name a) ∧ (comma ∉ last_name a).
Proof.
  intros Hno. pose proof Hno as Hno'%contains_char_false.
  unfold parse_author. rewrite Hno'.
  destruct (Nat.eqb_spec (length (split_ws token)) 2) as [Hlen|]; [|done].
  destruct (split_ws token) as [|first [|last [|? ?]]] eqn:Hws; try done.
  cbn [assert rbind nth]. intros [= <-]. cbn [first_name last_name].
  destruct (split_ws_two _ _ _ Hws)
    as (pre & gap & post & -> & _ & _ & _ & _ & Hf & Hfne & Hl & Hlne).
  rewrite (strip_word first), (strip_word last) by done.
  repeat split; try done.
  - intros Hin. apply Hno. rewrite !elem_of_app. auto.
  - intros Hin. apply Hno. rewrite !elem_of_app. auto.
Qed.

(** X7. A pages string is accepted exactly when it holds no separator, or
    holds one with an integer for [int] on either side. *)
Theorem parse_pages_succeeds_iff info pages :
  info !! "pages" = Some (VStr pages) →
  (∃ info', parse_pages int info = Ok info') ↔
  en_dash ∉ pages ∨
  ∃ first last x y,
    pages = first ++ en_dash :: last ∧ (en_dash ∉ first) ∧ (en_dash ∉ last) ∧
    int first = Some x ∧ int last = Some y.
Proof.
  intros Hp. split.
  - intros [info' Hok]. unfold parse_pages, int_of in Hok. rewrite Hp in Hok.
    destruct (split [en_dash] pages) as [|first [|last [|? ?]]] eqn:Hs;
      cbn [length Nat.eqb nth] in Hok; try done.
    + left. pose proof (split_char_length en_dash pages) as Hl.
      rewrite Hs in Hl. cbn in Hl. rewrite <- count_occ_pos_elem. lia.
    + right. destruct (int first) as [x|] eqn:Hx; [|done]. cbn [rbind] in Hok.
      destruct (int last) as [y|] eqn:Hy; [|done].
      apply split_char_two_inv in Hs as (-> & Hf & Hl).
      by exists first, last, x, y.
  - intros [Hno | (first & last & x & y & -> & Hf & Hl & Hx & Hy)].
    + eexists. by apply parse_pages_single.
    + eexists. eapply parse_pages_range; [done | by apply split_char_once | done..].
Qed.

End Construction.

(** ** Further properties of the preparation *)

Section Preparation.

Implicit Types (info : gmap string value) (self : Citation) (tag : pystr).

Lemma map_type_listed_key tag :
  In tag (map fst type_mapping_bib_to_cff) → ∃ c, map_type (VStr tag) = Ok c.
Proof.
  intros ((tag' & c) & <- & Hin)%in_map_iff. exists c. by apply map_type_listed.
Qed.

Lemma map_type_ok_listed tag c :
  map_type (VStr tag) = Ok c → In tag (map fst type_mapping_bib_to_cff).
Proof.
  intros Hok.
  destruct (decide (tag ∈ map fst type_mapping_bib_to_cff)) as [Hin|Hno].
  - by apply list_elem_of_In.
  - rewrite list_elem_of_In in Hno. apply map_type_unlisted in Hno. congruence.
Qed.

Lemma map_type_conference tag c :
  map_type (VStr tag) = Ok c →
  eq_str (VStr c) (lit "conference-paper") = bool_decide (tag = lit "inproceedings").
Proof.
  unfold map_type, type_mapping_bib_to_cff, dict_get.
  repeat (case_bool_decide as Hk;
          [intros [= <-]; subst tag; vm_compute; reflexivity | clear Hk]).
  done.
Qed.

(** X8. Preparation succeeds exactly when the [Citation] was built from an
    entry and its entry type, if it has one, is a key of the table; the
    date fields and the clock never make it fail. *)
Theorem prep_succeeds_iff dt self :
  (∃ self', prep_info_for_export dt self = Ok self') ↔
  bibtex_provided self = true ∧
  (info_dict self !! "ENTRYTYPE" = None ∨
   ∃ tag, info_dict self !! "ENTRYTYPE" = Some (VStr tag) ∧
          In tag [lit "article"; lit "book"; lit "booklet"; lit "inproceedings";
                  lit "proceedings"; lit "misc"; lit "manual"; lit "software";
                  lit "techreport"; lit "unpublished"]).
Proof.
  rewrite prep_info_for_export_eq. unfold prep_type.
  rewrite lookup_insert_ne by done.
  destruct (bibtex_provided self); [|split; [by intros [? ?] | by intros [? _]]].
  destruct (info_dict self !! "ENTRYTYPE") as [[tag|n]|] eqn:Htag.
  - destruct (map_type (VStr tag)) as [e|c] eqn:Hc; cbn [rbind].
    + split; [by intros [? ?]|]. intros (_ & [?|(tag' & [= <-] & Hin)]); [done|].
      apply (map_type_listed_key tag) in Hin as [c Hc']. congruence.
    + split; [|eauto]. intros _. split; [done|]. right. exists tag.
      split; [done|]. by apply (map_type_ok_listed tag c).
  - cbn [map_type rbind]. split; [by intros [? ?]|].
    by intros (_ & [?|(tag' & ? & _)]).
  - split; [intros _; by auto | eauto].
Qed.

(** X9. The date of a prepared [Citation] is the [year] field, or the year
    of the clock, then the [month] and the [day] field, or 1, each filled
    with zeros to two places; a [date] or [date-released] already there and
    the month and day of the clock have no part in it. *)
Theorem prepared_date_released dt self self' :
  prep_info_for_export dt self = Ok self' →
  info_dict self' !! "date-released" =
    Some (VStr (format (default (VInt (dt_year dt)) (info_dict self !! "year"))
                  ++ lit "-"
                  ++ zfill 2 (format (default (VInt 1) (info_dict self !! "month")))
                  ++ lit "-"
                  ++ zfill 2 (format (default (VInt 1) (info_dict self !! "day"))))).
Proof. apply prep_date_released. Qed.

Lemma zfill_length width s : length (zfill width s) = Nat.max width (length s).
Proof.
  unfold zfill. destruct (Nat.leb_spec width (length s)); [lia|].
  destruct s as [|x s]; [rewrite repeat_length; simpl; lia|].
  destruct ((x =? 43) || (x =? 45))%N; simpl;
    rewrite length_app, repeat_length; simpl; lia.
Qed.

(** X10. With a [year] field of four code points and [month] and [day]
    fields of one or two, the date of a prepared [Citation] has the ten
    code points of [YYYY-MM-DD]. *)
Theorem prepared_date_released_width dt self self' y m d :
  prep_info_for_export dt self = Ok self' →
  info_dict self !! "year" = Some (VStr y) →
  info_dict self !! "month" = Some (VStr m) →
  info_dict self !! "day" = Some (VStr d) →
  length y = 4%nat → (length m ≤ 2)%nat → (length d ≤ 2)%nat →
  ∃ date, info_dict self' !! "date-released" = Some (VStr date) ∧
          length date = 10%nat.
Proof.
  intros Hprep Hy Hm Hd Hly Hlm Hld.
  rewrite (prep_date_released _ _ _ Hprep). eexists. split; [done|].
  unfold constructed_date. rewrite Hy, Hm, Hd. cbn [default from_option format id].
  rewrite !length_app, !zfill_length. change (length (lit "-")) with 1%nat. lia.
Qed.

(** X11. The journal of a prepared [Citation] is its [journal], and failing
    that its [series]. *)
Theorem prepared_journal dt self self' :
  prep_info_for_export dt self = Ok self' →
  info_dict self' !! "journal" =
    match info_dict self !! "journal" with
    | Some j => Some j
    | None => info_dict self !! "series"
    end.
Proof.
  intros (_ & info & Ht & ->)%prep_ok_inv. cbn [info_dict with_info].
  rewrite prep_conference_lookup_ne by done.
  pose proof (prep_type_lookup_ne _ _ "journal" Ht) as Hj.
  pose proof (prep_type_lookup_ne _ _ "series" Ht) as Hs.
  rewrite lookup_insert_ne in Hj, Hs by done.
  unfold prep_journal. destruct (has_key "journal" info) eqn:Hk.
  - apply has_key_true in Hk as [j Hk]. rewrite Hk. rewrite Hj in Hk by done.
    by rewrite Hk.
  - apply has_key_false in Hk. rewrite <- Hj, Hk, <- Hs by done.
    destruct (info !! "series") eqn:Hser; [by rewrite lookup_insert_eq | done].
Qed.

(** X12. The conference of a prepared [Citation] is the one it had; failing
    that, the [booktitle] when the entry type is [inproceedings]; and
    absent otherwise. *)
Theorem prepared_conference dt self self' tag :
  prep_info_for_export dt self = Ok self' →
  info_dict self !! "ENTRYTYPE" = Some (VStr tag) →
  info_dict self' !! "conference" =
    match info_dict self !! "conference" with
    | Some conf => Some conf
    | None => if bool_decide (tag = lit "inproceedings")
              then info_dict self !! "booktitle" else None
    end.
Proof.
  intros (_ & info & Ht & ->)%prep_ok_inv Htag. cbn [info_dict with_info].
  unfold prep_type in Ht. rewrite lookup_insert_ne, Htag in Ht by done.
  destruct (map_type (VStr tag)) as [|c] eqn:Hc; [done|]. cbn [rbind] in Ht.
  injection Ht as <-. apply map_type_conference in Hc.
  unfold prep_conference.
  rewrite !prep_journal_lookup_ne, lookup_insert_eq by done.
  rewrite Hc. unfold has_key.
  rewrite !prep_journal_lookup_ne, !lookup_insert_ne by done.
  case_bool_decide.
  - destruct (info_dict self !! "booktitle") as [b|] eqn:Hb.
    + case_bool_decide as Hconf.
      * destruct Hconf as [conf Hconf].
        rewrite prep_journal_lookup_ne, !lookup_insert_ne by done.
        by rewrite Hconf.
      * rewrite lookup_insert_eq.
        destruct (info_dict self !! "conference") eqn:Hconf'; [|done].
        exfalso. apply Hconf. by eexists.
    + rewrite prep_journal_lookup_ne, !lookup_insert_ne by done.
      by destruct (info_dict self !! "conference").
  - rewrite prep_journal_lookup_ne, !lookup_insert_ne by done.
    by destruct (info_dict self !! "conference").
Qed.

(** X13. Preparation writes four keys and nothing else: every other key of
    the dictionary, the authors and their count are as before. *)
Theorem prep_changes_four_keys dt self self' :
  prep_info_for_export dt self = Ok self' →
  (∀ k, k ∉ ["date-released"; "cff_type"; "journal"; "conference"] →
        info_dict self' !! k = info_dict self !! k) ∧
  author_dict self' = author_dict self ∧
  n_authors self' = n_authors self ∧
  author_none self' = author_none self.
Proof.
  intros Hprep. split.
  - intros k Hk. rewrite !not_elem_of_cons in Hk. destruct_and!.
    by apply (prep_preserves dt).
  - by apply prep_ok_inv in Hprep as (_ & info & _ & ->).
Qed.

End Preparation.

(** ** Further properties of the serialization *)

Section Rendering.

Variable int : pystr → option Z.

Implicit Types (self : Citation) (bib_info : Entry) (out lines : list pystr).

Lemma io_bind_lift_ok {A B} (a : A) (k : A → IO B) out :
  io_bind (lift (Ok a)) k out = k a out.
Proof. reflexivity. Qed.

Lemma io_bind_lift_raise {A B} e (k : A → IO B) out :
  io_bind (lift (Raise e)) k out = (out, Raise e).
Proof. reflexivity. Qed.

Lemma io_bind_write {B} s (k : unit → IO B) out :
  io_bind (write s) k out = k tt (out ++ [s]).
Proof. reflexivity. Qed.

Lemma io_bind_ret {A B} (a : A) (k : A → IO B) out :
  io_bind (io_ret a) k out = k a out.
Proof. reflexivity. Qed.

Lemma writes_ret {A} (a : A) : writes (io_ret a) [].
Proof. intros out. exists a. unfold io_ret. by rewrite app_nil_r. Qed.

Lemma writes_write s : writes (write s) [s].
Proof. intros out. by exists tt. Qed.

Lemma writes_bind {A B} (m : IO A) (k : A → IO B) lines1 lines2 :
  writes m lines1 → (∀ a, writes (k a) lines2) →
  writes (io_bind m k) (lines1 ++ lines2).
Proof.
  intros Hm Hk out. destruct (Hm out) as [a Ha].
  destruct (Hk a (out ++ lines1)) as [b Hb].
  exists b. unfold io_bind. by rewrite Ha, Hb, app_assoc.
Qed.

Lemma writes_for_each {A} (l : list A) (body : A → IO unit) (f : A → list pystr) :
  (∀ a, writes (body a) (f a)) → writes (for_each l body) (concat (map f l)).
Proof.
  intros Hbody. induction l as [|a l IH]; [apply writes_ret|].
  cbn [for_each map concat]. apply writes_bind; [apply Hbody | by intros _].
Qed.

Lemma writes_succeeds {A} (m : IO A) lines : writes m lines → succeeds m.
Proof. intros Hm out. destruct (Hm out) as [a Ha]. eauto. Qed.

Lemma writes_appends {A} (m : IO A) lines : writes m lines → appends m.
Proof. intros Hm out. destruct (Hm out) as [a Ha]. exists lines. by rewrite Ha. Qed.

Lemma succeeds_bind {A B} (m : IO A) (k : A → IO B) :
  succeeds m → (∀ a, succeeds (k a)) → succeeds (io_bind m k).
Proof.
  intros Hm Hk out. destruct (Hm out) as (out' & a & Ha).
  unfold io_bind. rewrite Ha. apply Hk.
Qed.

Lemma succeeds_for_each {A} (l : list A) (body : A → IO unit) :
  (∀ a, succeeds (body a)) → succeeds (for_each l body).
Proof.
  intros Hbody. induction l as [|a l IH]; cbn [for_each].
  - apply (writes_succeeds _ _ (writes_ret tt)).
  - apply succeeds_bind; [apply Hbody | by intros _].
Qed.

Lemma appends_raise {A} e : appends (lift (Raise e) : IO A).
Proof. intros out. exists []. by rewrite app_nil_r. Qed.

Lemma appends_lift {A} (r : result A) : appends (lift r).
Proof. intros out. exists []. by rewrite app_nil_r. Qed.

Lemma appends_bind {A B} (m : IO A) (k : A → IO B) :
  appends m → (∀ a, appends (k a)) → appends (io_bind m k).
Proof.
  intros Hm Hk out. destruct (Hm out) as [lines1 H1]. unfold io_bind.
  destruct (m out) as [out' [e|a]]; simpl in H1; subst out'.
  - by exists lines1.
  - destruct (Hk a (out ++ lines1)) as [lines2 H2].
    exists (lines1 ++ lines2). by rewrite H2, app_assoc.
Qed.

Lemma appends_for_each {A} (l : list A) (body : A → IO unit) :
  (∀ a, appends (body a)) → appends (for_each l body).
Proof.
  intros Hbody. induction l as [|a l IH]; cbn [for_each].
  - apply (writes_appends _ _ (writes_ret tt)).
  - apply appends_bind; [apply Hbody | by intros _].
Qed.

Lemma appends_write_if_present d key (line : value → IO unit) :
  (∀ v, appends (line v)) → appends (write_if_present d key line).
Proof.
  intros Hline. unfold write_if_present.
  destruct (d !! key); [apply Hline | apply (writes_appends _ _ (writes_ret tt))].
Qed.

Lemma succeeds_write_if_present d key (line : value → IO unit) :
  (∀ v, succeeds (line v)) → succeeds (write_if_present d key line).
Proof.
  intros Hline. unfold write_if_present.
  destruct (d !! key); [apply Hline | apply (writes_succeeds _ _ (writes_ret tt))].
Qed.

(** What the author renderer writes when its three assertions hold. *)
Lemma add_author_names_writes indent self ad :
  author_dict self = Some ad → n_authors self = Some (length ad) → ad ≠ [] →
  writes (add_author_names_to_cff indent self)
         (author_lines (repeat space indent) ad).
Proof.
  intros Had Hn Hne out. exists tt.
  unfold add_author_names_to_cff. rewrite Had, Hn.
  rewrite io_bind_lift_ok, Nat.eqb_refl. cbn [assert]. rewrite io_bind_lift_ok.
  replace (0 <? length ad)%nat with true
    by (symmetry; apply Nat.ltb_lt; destruct ad; [done | simpl; lia]).
  cbn [assert]. rewrite io_bind_lift_ok, io_bind_write.
  unfold author_lines.
  pose proof (writes_for_each ad
    (fun author_name_dict =>
       write (quoted_line (repeat space indent ++ lit "  - family-names: ")
                (last_name author_name_dict)) >>
       write (quoted_line (repeat space indent ++ lit "    given-names: ")
                (first_name author_name_dict)) >>
       match orcid author_name_dict with
       | Some o => write (quoted_line (repeat space indent ++ lit "    orcid: ") o)
       | None => io_ret tt
       end)
    (fun a =>
       [quoted_line (repeat space indent ++ lit "  - family-names: ") (last_name a);
        quoted_line (repeat space indent ++ lit "    given-names: ") (first_name a)]
       ++ match orcid a with
          | Some o => [quoted_line (repeat space indent ++ lit "    orcid: ") o]
          | None => []
          end)) as Hloop.
  destruct (Hloop (ltac:(
    intros a out'; exists tt; rewrite !io_bind_write;
    destruct (orcid a); [unfold write | unfold io_ret];
    by rewrite <- ?app_assoc, ?app_nil_r))
    (out ++ [repeat space indent ++ lit "authors:" ++ [newline]])) as [[] Hl].
  etrans; [exact Hl|]. by rewrite <- app_assoc.
Qed.

Lemma add_author_names_ok_inv indent self out out' :
  add_author_names_to_cff indent self out = (out', Ok tt) →
  ∃ ad, author_dict self = Some ad ∧ n_authors self = Some (length ad) ∧ ad ≠ [].
Proof.
  unfold add_author_names_to_cff.
  destruct (author_dict self) as [ad|]; [|done].
  destruct (n_authors self) as [n|]; [|done]. rewrite io_bind_lift_ok.
  destruct (Nat.eqb_spec n (length ad)) as [->|]; [|done].
  cbn [assert]. rewrite io_bind_lift_ok.
  destruct ad as [|a ad]; [done|]. intros _. by exists (a :: ad).
Qed.

Lemma author_lines_indent indent ad :
  author_lines (repeat space indent) ad =
    map (app (repeat space indent)) (author_lines [] ad).
Proof.
  unfold author_lines. cbn [map]. rewrite concat_map, map_map.
  f_equal. f_equal. apply map_ext. intros a.
  unfold quoted_line. destruct (orcid a); cbn [map app];
    by rewrite <- ?app_assoc.
Qed.

(** X15. The author list inside the preferred citation is the top-level
    author list, line for line, behind the indentation. *)
Theorem nested_author_block_is_indented_copy indent self lines :
  run (add_author_names_to_cff 0 self) = (lines, Ok tt) →
  ∀ out,
    add_author_names_to_cff indent self out =
      (out ++ map (app (repeat space indent)) lines, Ok tt).
Proof.
  intros Hrun out.
  destruct (add_author_names_ok_inv _ _ _ _ Hrun) as (ad & Had & Hn & Hne).
  destruct (add_author_names_writes 0 self ad Had Hn Hne []) as [[] H0].
  unfold run in Hrun. rewrite H0 in Hrun. injection Hrun as <-.
  destruct (add_author_names_writes indent self ad Had Hn Hne out) as [[] ->].
  cbn [repeat app]. by rewrite author_lines_indent.
Qed.

End Rendering.

(** ** Whole conversions *)

Section Conversions.

Variable int : pystr → option Z.

Implicit Types (self : Citation) (bib_info : Entry) (out lines : list pystr).

Lemma succeeds_lift_ok_bind {A B} (a : A) (k : A → IO B) :
  succeeds (k a) → succeeds (io_bind (lift (Ok a)) k).
Proof. intros H out. apply H. Qed.

Lemma appends_add_author_names indent self :
  appends (add_author_names_to_cff indent self).
Proof.
  unfold add_author_names_to_cff.
  destruct (author_dict self); [|apply appends_lift].
  repeat lazymatch goal with
    | |- appends (io_bind _ _) => apply appends_bind; [|intros ?]
    | |- appends (lift _) => apply appends_lift
    | |- appends (write _) => apply (writes_appends _ _ (writes_write _))
    | |- appends (io_ret _) => apply (writes_appends _ _ (writes_ret _))
    | |- appends (for_each _ _) => apply appends_for_each; intros ?
    | |- appends (match ?x with _ => _ end) => destruct x
    end.
Qed.

Lemma export_succeeds dt cff_version self self' title ad :
  prep_info_for_export dt self = Ok self' →
  info_dict self !! "title" = Some title →
  author_dict self = Some ad → n_authors self = Some (length ad) → ad ≠ [] →
  succeeds (export_as_cff dt cff_version self).
Proof.
  intros Hprep Htitle Had Hn Hne.
  pose proof (prep_date_released _ _ _ Hprep) as Hdr.
  pose proof (prep_preserves _ _ _ "title" Hprep) as Ht.
  rewrite Htitle in Ht.
  destruct (prep_authors _ _ _ Hprep) as [Had' Hn'].
  rewrite Had in Had'. rewrite Hn in Hn'.
  unfold export_as_cff. rewrite Hprep.
  apply succeeds_lift_ok_bind. unfold getitem. rewrite Hdr, Ht by done.
  apply succeeds_lift_ok_bind.
  repeat lazymatch goal with
    | |- succeeds (io_bind (lift (Ok _)) _) => apply succeeds_lift_ok_bind
    | |- succeeds (io_bind _ _) => apply succeeds_bind; [|intros ?]
    | |- succeeds (write _) => apply (writes_succeeds _ _ (writes_write _))
    | |- succeeds (io_ret _) => apply (writes_succeeds _ _ (writes_ret _))
    | |- succeeds (for_each _ _) => apply succeeds_for_each; intros ?
    | |- succeeds (write_if_present _ _ _) =>
        apply succeeds_write_if_present; intros ?
    | |- succeeds (add_author_names_to_cff _ _) =>
        eapply writes_succeeds, add_author_names_writes; eassumption
    | |- succeeds (match ?x with _ => _ end) => destruct x
    end.
Qed.

Lemma run_process bib_info c dt :
  new_Citation int [bib_info] = Ok c →
  run (process int dt [bib_info]) = run (export_as_cff dt (lit "1.2.0") c).
Proof. intros Hc. unfold run, process. by rewrite Hc. Qed.

Lemma run_export_prep_raise dt cff_version self e :
  prep_info_for_export dt self = Raise e →
  run (export_as_cff dt cff_version self) = ([], Raise e).
Proof. intros He. unfold run, export_as_cff. by rewrite He. Qed.

(** X16. A conversion runs to its end exactly when the one entry is
    accepted by the constructor, its type is a key of the table, and it has
    a [title] and an [author] field. *)
Theorem process_succeeds_iff dt bib_info :
  (∃ out, run (process int dt [bib_info]) = (out, Ok tt)) ↔
  (∃ c, new_Citation int [bib_info] = Ok c) ∧
  In (entry_type bib_info)
     [lit "article"; lit "book"; lit "booklet"; lit "inproceedings";
      lit "proceedings"; lit "misc"; lit "manual"; lit "software";
      lit "techreport"; lit "unpublished"] ∧
  is_Some (fields_dict bib_info !! "title") ∧
  is_Some (fields_dict bib_info !! "author").
Proof.
  destruct (new_Citation int [bib_info]) as [err|c] eqn:Hc.
  { split; [|by intros [[? ?] _]]. intros [out Hrun].
    unfold run, process in Hrun. by rewrite Hc in Hrun. }
  rewrite (run_process _ _ _ Hc).
  destruct (new_Citation_dict int _ _ Hc) as (Hprov & Htag & Hcopied & _).
  pose proof (Hcopied "title" ltac:(repeat constructor)) as Htitle.
  split.
  - intros [out Hrun]. split; [by eauto|].
    destruct (prep_info_for_export dt c) as [e|c'] eqn:Hprep.
    { by rewrite (run_export_prep_raise _ _ _ _ Hprep) in Hrun. }
    split; [|split].
    + destruct (prep_cff_type _ _ _ _ Htag Hprep) as (t & Ht & _).
      by apply (map_type_ok_listed _ t).
    + destruct (fields_dict bib_info !! "title") eqn:Hf; [by eexists|].
      simpl in Htitle.
      by rewrite (export_without_title_run _ _ _ _ Htitle Hprep) in Hrun.
    + destruct (fields_dict bib_info !! "author") eqn:Hf; [by eexists|].
      destruct (new_Citation_without_author int _ _ Hf Hc) as [Had _].
      destruct (export_fails_without_authors dt (lit "1.2.0") c Had [])
        as (out' & e & Hfail).
      unfold run in Hrun. congruence.
  - intros (_ & Hin & [title Hf] & [field Hfa]).
    rewrite Hf in Htitle. simpl in Htitle.
    destruct (new_Citation_authors int _ _ _ Hfa Hc) as (authors & Hp & Had & Hn).
    assert (authors ≠ []) as Hne.
    { apply mapM_Ok in Hp. apply Forall2_length in Hp.
      pose proof (split_from_nonempty (lit " and ") 0 field) as Hs.
      unfold split in Hp. destruct (split_from _ _ _); [done|].
      by destruct authors. }
    apply (map_type_listed_key (entry_type bib_info)) in Hin as [t Ht].
    assert (∃ c', prep_info_for_export dt c = Ok c') as [c' Hprep].
    { rewrite prep_info_for_export_eq, Hprov. unfold prep_type.
      rewrite lookup_insert_ne, Htag, Ht by done. by eexists. }
    destruct (export_succeeds dt (lit "1.2.0") c c' _ _ Hprep Htitle Had Hn Hne [])
      as (out & [] & Hrun).
    by exists out.
Qed.

(** X17. A [Citation] with a title and no authors is rendered as far as the
    version lines: the [date-released] line, the [doi] line if there is a
    [doi] or [repo_doi], the [title] and [cff-version] lines and the
    [version] line if there is a [repo_version]; then the assertion on the
    authors fails. *)
Theorem export_without_authors_run dt cff_version self self' title :
  author_dict self = None →
  prep_info_for_export dt self = Ok self' →
  info_dict self !! "title" = Some title →
  run (export_as_cff dt cff_version self) =
    ([quoted_line (lit "date-released: ") (constructed_date dt (info_dict self))]
       ++ match info_dict self !! "doi" with
          | Some doi => [quoted_line (lit "doi: ") (format doi)]
          | None =>
              match info_dict self !! "repo_doi" with
              | Some doi => [quoted_line (lit "doi: ") (format doi)]
              | None => []
              end
          end
       ++ [quoted_line (lit "title: ") (format title);
           quoted_line (lit "cff-version: ") cff_version]
       ++ match info_dict self !! "repo_version" with
          | Some v => [quoted_line (lit "version: ") (format v)]
          | None => []
          end,
     Raise (AssertionError [])).
Proof.
  intros Had Hprep Htitle.
  pose proof (prep_date_released _ _ _ Hprep) as Hdr.
  pose proof (prep_preserves _ _ _ "title" Hprep) as Ht.
  pose proof (prep_preserves _ _ _ "doi" Hprep) as Hdoi.
  pose proof (prep_preserves _ _ _ "repo_doi" Hprep) as Hrepo.
  pose proof (prep_preserves _ _ _ "repo_version" Hprep) as Hver.
  destruct (prep_authors _ _ _ Hprep) as [Had' _]. rewrite Had in Had'.
  rewrite Htitle in Ht.
  unfold run, export_as_cff, add_author_names_to_cff, io_bind, lift, getitem,
    write_if_present, write, io_ret.
  rewrite Hprep, Hdr, Ht, Hdoi, Hrepo, Hver, Had' by done.
  cbn [format app].
  destruct (info_dict self !! "doi"), (info_dict self !! "repo_doi"),
    (info_dict self !! "repo_version"); reflexivity.
Qed.

(** X18. Whenever the title is there, the output opens with the
    [date-released] line, the [doi] line (of [doi], and of [repo_doi] only
    when there is no [doi]), the [title] line, the [cff-version] line and
    the [version] line, in this order, whatever follows and however the
    conversion ends. *)
Theorem export_header dt cff_version self self' title :
  prep_info_for_export dt self = Ok self' →
  info_dict self !! "title" = Some title →
  ∃ rest r,
    run (export_as_cff dt cff_version self) =
      ([quoted_line (lit "date-released: ") (constructed_date dt (info_dict self))]
         ++ match info_dict self !! "doi" with
            | Some doi => [quoted_line (lit "doi: ") (format doi)]
            | None =>
                match info_dict self !! "repo_doi" with
                | Some doi => [quoted_line (lit "doi: ") (format doi)]
                | None => []
                end
            end
         ++ [quoted_line (lit "title: ") (format title);
             quoted_line (lit "cff-version: ") cff_version]
         ++ match info_dict self !! "repo_version" with
            | Some v => [quoted_line (lit "version: ") (format v)]
            | None => []
            end
         ++ rest, r).
Proof.
  intros Hprep Htitle.
  pose proof (prep_date_released _ _ _ Hprep) as Hdr.
  pose proof (prep_preserves _ _ _ "title" Hprep) as Ht.
  pose proof (prep_preserves _ _ _ "doi" Hprep) as Hdoi.
  pose proof (prep_preserves _ _ _ "repo_doi" Hprep) as Hrepo.
  pose proof (prep_preserves _ _ _ "repo_version" Hprep) as Hver.
  rewrite Htitle in Ht.
  unfold run, export_as_cff, getitem, write_if_present.
  rewrite Hprep, io_bind_lift_ok. rewrite Hdr, Ht, Hdoi, Hrepo, Hver by done.
  rewrite io_bind_lift_ok, io_bind_write.
  assert (∀ header,
    ∃ rest r,
      (add_author_names_to_cff 0 self' >>
       write (lit "preferred-citation:" ++ [newline]) >>
       match info_dict self' !! "cff_type" with
       | Some t => write (quoted_line (lit "  type: ") (format t))
       | None => write (quoted_line (lit "  type: ") (lit "generic"))
       end >>
       match info_dict self' !! "publisher" with
       | Some v =>
           write (lit "  publisher:" ++ [newline]) >>
           write (quoted_line (lit "    name: ") (format v))
       | None => io_ret tt
       end >>
       match info_dict self' !! "conference" with
       | Some v =>
           write (lit "  conference:" ++ [newline]) >>
           write (quoted_line (lit "    name: ") (format v))
       | None => io_ret tt
       end >>
       for_each citation_keys (fun key =>
         match info_dict self' !! key with
         | Some v => write (quoted_line (lit "  " ++ lit key ++ lit ": ") (format v))
         | None => io_ret tt
         end) >>
       add_author_names_to_cff 2 self') header = (header ++ rest, r)) as Htail.
  { intros header.
    match goal with
    | |- ∃ rest r, ?m header = _ =>
        assert (appends m) as Happ
    end.
    { repeat lazymatch goal with
        | |- appends (add_author_names_to_cff _ _) =>
            apply appends_add_author_names
        | |- appends (io_bind _ _) => apply appends_bind; [|intros ?]
        | |- appends (write _) => apply (writes_appends _ _ (writes_write _))
        | |- appends (io_ret _) => apply (writes_appends _ _ (writes_ret _))
        | |- appends (for_each _ _) => apply appends_for_each; intros ?
        | |- appends (match ?x with _ => _ end) => destruct x
        end. }
    destruct (Happ header) as [rest Hrest].
    eexists rest, _. rewrite <- Hrest. apply surjective_pairing. }
  destruct (info_dict self !! "doi") as [doi|];
    [|destruct (info_dict self !! "repo_doi") as [doi|]];
    rewrite ?io_bind_write, ?io_bind_ret, io_bind_lift_ok, !io_bind_write;
    (destruct (info_dict self !! "repo_version") as [v|];
     rewrite ?io_bind_write, ?io_bind_ret;
     match goal with
     | |- ∃ rest r, _ ?header = _ =>
         destruct (Htail header) as (rest & r & ->)
     end;
     exists rest, r; cbn [app]; by rewrite <- ?app_assoc).
Qed.

Lemma prep_clock dt1 dt2 self :
  is_Some (info_dict self !! "year") ∨ dt_year dt1 = dt_year dt2 →
  prep_info_for_export dt1 self = prep_info_for_export dt2 self.
Proof.
  intros Hyear. rewrite !prep_info_for_export_eq.
  assert (constructed_date dt1 (info_dict self)
          = constructed_date dt2 (info_dict self)) as ->; [|done].
  unfold constructed_date. by destruct Hyear as [[y ->] | ->].
Qed.

(** X19. Of the clock a conversion reads the year alone, and that only
    when the entry has no [year] field: two clocks that agree on the year,
    or any two clocks for an entry with a year, give the same text and the
    same end. *)
Theorem conversion_reads_the_year_of_the_clock dt1 dt2 bib_info :
  is_Some (fields_dict bib_info !! "year") ∨ dt_year dt1 = dt_year dt2 →
  ∀ out, process int dt1 [bib_info] out = process int dt2 [bib_info] out.
Proof.
  intros Hyear out. unfold process.
  destruct (new_Citation int [bib_info]) as [e|c] eqn:Hc; [done|].
  rewrite !io_bind_lift_ok. unfold export_as_cff.
  rewrite (prep_clock dt1 dt2 c); [done|].
  destruct Hyear as [[y Hy]|]; [left | by right].
  destruct (new_Citation_dict int _ _ Hc) as (_ & _ & Hcopied & _).
  rewrite (Hcopied "year") by (repeat constructor). rewrite Hy. by eexists.
Qed.

Lemma main_cons file files out :
  main int (file :: files) out =
    match process int (fst file) (snd file) out with
    | (out', Ok _) => main int files out'
    | (out', Raise e) => (out', Raise e)
    end.
Proof. reflexivity. Qed.

(** X20. A run over several inputs ends at the first one whose conversion
    fails: what was written until then stays, the exception is the end of
    the run, and the inputs after it are not converted. *)
Theorem main_stops_at_first_failure files file files' out out1 out2 e :
  main int files out = (out1, Ok tt) →
  process int (fst file) (snd file) out1 = (out2, Raise e) →
  main int (files ++ file :: files') out = (out2, Raise e).
Proof.
  revert out. induction files as [|f files IH]; intros out.
  - intros [= <-] Hfail. cbn [app]. by rewrite main_cons, Hfail.
  - rewrite <- app_comm_cons, !main_cons.
    destruct (process int (fst f) (snd f) out) as [out' [e'|[]]]; [done|].
    apply IH.
Qed.

End Conversions.

(** ** Worked instances of the further properties *)

Lemma parse_bibtex_needs_one_entry_witness :
  parse_bibtex int_ascii citation_anonymous [] =
    Raise (AssertionError
             (lit "more than 1 entries in bib tex file, give ind or something")) ∧
  parse_bibtex int_ascii citation_anonymous [entry_paper; entry_undated] =
    Raise (AssertionError
             (lit "more than 1 entries in bib tex file, give ind or something")).
Proof.
  split.
  - refine (parse_bibtex_needs_one_entry int_ascii citation_anonymous [] _).
    discriminate.
  - refine (parse_bibtex_needs_one_entry int_ascii citation_anonymous
              [entry_paper; entry_undated] _).
    discriminate.
Defined.


Lemma new_Citation_author_invariant_witness :
  ∃ c authors,
    new_Citation int_ascii [entry_paper] = Ok c ∧
    author_dict c = Some authors ∧ n_authors c = Some (length authors).
Proof.
  destruct (new_Citation int_ascii [entry_paper]) as [e|c] eqn:Hc;
    [vm_compute in Hc; discriminate Hc|].
  destruct (new_Citation_author_invariant int_ascii entry_paper c
              (lit "Doe, Jane and Smith, John") eq_refl Hc)
    as (authors & Had & Hn & _).
  exists c, authors. split; [reflexivity|]. split; assumption.
Defined.

Lemma parsed_names_are_trimmed_witness :
  strip (lit "Doe , Jane") = lit "Doe , Jane" ∧
  strip (lit "Jane") = lit "Jane" ∧ strip (lit "Doe") = lit "Doe".
Proof.
  exact (parsed_names_are_trimmed (lit " Doe , Jane ")
           (mk_author (lit "Doe , Jane") (lit "Jane") (lit "Doe") None) eq_refl).
Defined.

Lemma two_word_names_are_solid_witness :
  lit "Jane" ≠ [] ∧ lit "Doe" ≠ [] ∧ solid (lit "Jane") ∧ solid (lit "Doe") ∧
  (comma ∉ lit "Jane") ∧ (comma ∉ lit "Doe").
Proof.
  refine (two_word_names_are_solid (lit "Jane" ++ [9%N] ++ lit "Doe")
            (mk_author (lit "Jane" ++ [9%N] ++ lit "Doe") (lit "Jane") (lit "Doe")
               None) _ eq_refl).
  apply contains_char_false. reflexivity.
Defined.

Lemma parse_pages_succeeds_witness :
  ∃ info',
    parse_pages int_ascii
      (<["pages" := VStr (lit "12" ++ [en_dash] ++ lit "20")]> ∅) = Ok info'.
Proof.
  refine (proj2 (parse_pages_succeeds_iff int_ascii
                   (<["pages" := VStr (lit "12" ++ [en_dash] ++ lit "20")]> ∅)
                   (lit "12" ++ [en_dash] ++ lit "20") eq_refl) _).
  right. exists (lit "12"), (lit "20"), 12%Z, 20%Z.
  split; [reflexivity|].
  split; [apply contains_char_false; reflexivity|].
  split; [apply contains_char_false; reflexivity|].
  split; reflexivity.
Defined.

Lemma prepared_date_released_witness :
  ∃ self', prep_info_for_export today citation_series = Ok self' ∧
           info_dict self' !! "date-released" = Some (VStr (lit "2021-05-03")).
Proof.
  destruct (prep_info_for_export today citation_series) as [e|self'] eqn:Hprep;
    [vm_compute in Hprep; discriminate Hprep|].
  exists self'. split; [reflexivity|].
  exact (prepared_date_released today citation_series self' Hprep).
Defined.

Lemma prepared_date_released_width_witness :
  ∃ self' date,
    prep_info_for_export today citation_series = Ok self' ∧
    info_dict self' !! "date-released" = Some (VStr date) ∧ length date = 10%nat.
Proof.
  destruct (prep_info_for_export today citation_series) as [e|self'] eqn:Hprep;
    [vm_compute in Hprep; discriminate Hprep|].
  destruct (prepared_date_released_width today citation_series self'
              (lit "2021") (lit "5") (lit "3") Hprep eq_refl eq_refl eq_refl
              eq_refl (le_S _ _ (le_n _)) (le_S _ _ (le_n _)))
    as (date & Hd & Hl).
  exists self', date. split; [reflexivity|]. split; assumption.
Defined.

Lemma prepared_journal_witness :
  ∃ self', prep_info_for_export today citation_series = Ok self' ∧
           info_dict self' !! "journal" = Some (VStr (lit "LNCS")).
Proof.
  destruct (prep_info_for_export today citation_series) as [e|self'] eqn:Hprep;
    [vm_compute in Hprep; discriminate Hprep|].
  exists self'. split; [reflexivity|].
  exact (prepared_journal today citation_series self' Hprep).
Defined.

Lemma prepared_conference_witness :
  ∃ self', prep_info_for_export today citation_series = Ok self' ∧
           info_dict self' !! "conference" = Some (VStr (lit "Proc. X")).
Proof.
  destruct (prep_info_for_export today citation_series) as [e|self'] eqn:Hprep;
    [vm_compute in Hprep; discriminate Hprep|].
  exists self'. split; [reflexivity|].
  exact (prepared_conference today citation_series self' (lit "inproceedings")
           Hprep eq_refl).
Defined.

Lemma prep_changes_four_keys_witness :
  ∃ self', prep_info_for_export today citation_series = Ok self' ∧
           info_dict self' !! "title" = Some (VStr (lit "A Paper")) ∧
           author_dict self' = author_dict citation_series.
Proof.
  destruct (prep_info_for_export today citation_series) as [e|self'] eqn:Hprep;
    [vm_compute in Hprep; discriminate Hprep|].
  destruct (prep_changes_four_keys today citation_series self' Hprep)
    as (Hkeys & Had & _).
  exists self'. split; [reflexivity|]. split; [|assumption].
  refine (Hkeys "title" _). intros H.
  repeat (apply elem_of_cons in H as [H|H]; [discriminate H|]).
  by apply elem_of_nil in H.
Defined.

Lemma prep_info_for_export_stable_witness :
  ∃ self1, prep_info_for_export new_years_eve citation_series = Ok self1 ∧
           prep_info_for_export new_years_day self1 = Ok self1.
Proof.
  destruct (prep_info_for_export new_years_eve citation_series) as [e|self1]
    eqn:Hprep; [vm_compute in Hprep; discriminate Hprep|].
  exists self1. split; [reflexivity|].
  refine (prep_info_for_export_stable new_years_eve new_years_day
            citation_series self1 Hprep _).
  left. eexists. reflexivity.
Defined.

Lemma nested_author_block_witness :
  run (add_author_names_to_cff 2 citation_series) =
    ([lit "  authors:" ++ [newline];
      quoted_line (lit "    - family-names: ") (lit "Doe");
      quoted_line (lit "      given-names: ") (lit "Jane")],
     Ok tt).
Proof.
  exact (nested_author_block_is_indented_copy 2 citation_series
           [lit "authors:" ++ [newline];
            quoted_line (lit "  - family-names: ") (lit "Doe");
            quoted_line (lit "    given-names: ") (lit "Jane")]
           eq_refl []).
Defined.

Lemma export_without_authors_witness :
  run (export_as_cff today (lit "1.2.0") citation_anonymous) =
    ([quoted_line (lit "date-released: ") (lit "2021-05-03");
      quoted_line (lit "title: ") (lit "A Paper");
      quoted_line (lit "cff-version: ") (lit "1.2.0")],
     Raise (AssertionError [])).
Proof.
  destruct (prep_info_for_export today citation_anonymous) as [e|self'] eqn:Hprep;
    [vm_compute in Hprep; discriminate Hprep|].
  exact (export_without_authors_run today (lit "1.2.0") citation_anonymous self'
           (VStr (lit "A Paper")) eq_refl Hprep eq_refl).
Defined.

Lemma export_header_witness :
  ∃ rest r,
    run (export_as_cff today (lit "1.2.0") citation_series) =
      ([quoted_line (lit "date-released: ") (lit "2021-05-03");
        quoted_line (lit "title: ") (lit "A Paper");
        quoted_line (lit "cff-version: ") (lit "1.2.0")] ++ rest, r).
Proof.
  destruct (prep_info_for_export today citation_series) as [e|self'] eqn:Hprep;
    [vm_compute in Hprep; discriminate Hprep|].
  exact (export_header today (lit "1.2.0") citation_series self'
           (VStr (lit "A Paper")) Hprep eq_refl).
Defined.

Lemma conversion_reads_the_year_witness :
  process int_ascii today [entry_paper] [] =
  process int_ascii new_years_day [entry_paper] [].
Proof.
  refine (conversion_reads_the_year_of_the_clock int_ascii today new_years_day
            entry_paper _ []).
  left. eexists. reflexivity.
Defined.

Lemma main_stops_at_first_failure_witness :
  ∃ out,
    main int_ascii [(today, [entry_year_only]); (today, [entry_untitled]);
                    (today, [entry_paper])] [] =
      (out, Raise (KeyError (lit "title"))).
Proof.
  eexists.
  refine (main_stops_at_first_failure int_ascii [(today, [entry_year_only])]
            (today, [entry_untitled]) [(today, [entry_paper])] [] _ _ _ _ _).
  - vm_compute. reflexivity.
  - vm_compute. reflexivity.
Defined.

(** ** The text of a completed conversion *)

Section Output.

Implicit Types (self : Citation) (out lines : list pystr).

Lemma writes_lift_ok_bind {A B} (a : A) (k : A → IO B) lines :
  writes (k a) lines → writes (io_bind (lift (Ok a)) k) lines.
Proof. intros H out. apply H. Qed.

Ltac step_writes :=
  lazymatch goal with
  | |- writes (io_bind (lift (Ok _)) _) _ => apply writes_lift_ok_bind
  | |- writes (io_bind (write ?s) _) (_ :: ?rest) =>
      apply (writes_bind _ _ [s] rest); [apply writes_write | intros _]
  | |- writes (io_bind _ _) (_ ++ _) => apply writes_bind; [|intros _]
  | |- writes (write _) [_] => apply writes_write
  | |- writes (io_ret _) [] => apply writes_ret
  | |- writes (for_each _ _) (concat (map _ _)) =>
      apply writes_for_each; intros ?
  | |- writes (write_if_present _ _ _) _ => unfold write_if_present
  | |- writes (add_author_names_to_cff _ _) _ =>
      apply add_author_names_writes; assumption
  | |- writes (match ?x with _ => _ end) _ => destruct x
  end.

(** X21. The text of a completed rendering, line by line: the header, the
    author list, then under [preferred-citation:] the type (["generic"]
    when no type was computed), the publisher and conference blocks, one
    line for each of the thirteen listed keys that is present, in the
    listed order and none for an absent one, and the author list again,
    indented by two. *)
Theorem export_as_cff_output dt cff_version self self' title ad :
  prep_info_for_export dt self = Ok self' →
  info_dict self !! "title" = Some title →
  author_dict self = Some ad → n_authors self = Some (length ad) → ad ≠ [] →
  let d := info_dict self' in
  run (export_as_cff dt cff_version self) =
    (quoted_line (lit "date-released: ") (constructed_date dt (info_dict self))
     :: match d !! "doi" with
        | Some doi => [quoted_line (lit "doi: ") (format doi)]
        | None =>
            match d !! "repo_doi" with
            | Some doi => [quoted_line (lit "doi: ") (format doi)]
            | None => []
            end
        end
     ++ quoted_line (lit "title: ") (format title)
     :: quoted_line (lit "cff-version: ") cff_version
     :: match d !! "repo_version" with
        | Some v => [quoted_line (lit "version: ") (format v)]
        | None => []
        end
     ++ author_lines (repeat space 0) ad
     ++ (lit "preferred-citation:" ++ [newline])
     :: match d !! "cff_type" with
        | Some t => [quoted_line (lit "  type: ") (format t)]
        | None => [quoted_line (lit "  type: ") (lit "generic")]
        end
     ++ match d !! "publisher" with
        | Some v => [lit "  publisher:" ++ [newline];
                     quoted_line (lit "    name: ") (format v)]
        | None => []
        end
     ++ match d !! "conference" with
        | Some v => [lit "  conference:" ++ [newline];
                     quoted_line (lit "    name: ") (format v)]
        | None => []
        end
     ++ concat (map (fun key =>
                       match d !! key with
                       | Some v =>
                           [quoted_line (lit "  " ++ lit key ++ lit ": ") (format v)]
                       | None => []
                       end)
                    ["doi"; "url"; "date-released"; "issue"; "volume";
                     "journal"; "title"; "booktitle"; "editor"; "series";
                     "publisher"; "start"; "end"])
     ++ author_lines (repeat space 2) ad,
     Ok tt).
Proof.
  intros Hprep Htitle Had Hn Hne d. subst d.
  pose proof (prep_date_released _ _ _ Hprep) as Hdr.
  pose proof (prep_preserves _ _ _ "title" Hprep) as Ht.
  rewrite Htitle in Ht.
  destruct (prep_authors _ _ _ Hprep) as [Had' Hn'].
  rewrite Had in Had'. rewrite Hn in Hn'.
  match goal with
  | |- run ?m = (?lines, _) => assert (writes m lines) as Hw
  end.
  { unfold export_as_cff. rewrite Hprep. apply writes_lift_ok_bind.
    unfold getitem. rewrite Hdr, Ht by done. unfold citation_keys.
    repeat step_writes. }
  destruct (Hw []) as [[] Hrun]. exact Hrun.
Qed.

End Output.

Lemma export_as_cff_output_witness :
  ∃ lines, run (export_as_cff today (lit "1.2.0") citation_series) = (lines, Ok tt) ∧
           length lines = 18%nat.
Proof.
  destruct (prep_info_for_export today citation_series) as [e|self'] eqn:Hprep;
    [vm_compute in Hprep; discriminate Hprep|].
  assert ([mk_author (lit "Jane Doe") (lit "Jane") (lit "Doe") None] ≠ []) as Hne
    by discriminate.
  pose proof (export_as_cff_output today (lit "1.2.0") citation_series self'
                (VStr (lit "A Paper")) _ Hprep eq_refl eq_refl eq_refl Hne) as Hrun.
  eexists. split; [exact Hrun|].
  injection Hprep as <-. vm_compute. reflexivity.
Defined.
